(** * AIWorker: the analysis request lifecycle of [src/components/AIWorker.jsx]

    The component is a React function component.  Its hooks are embedded
    as one record of state ([useState] cells, the [useRef] guard, the
    pending [setTimeout] callbacks and the invocations of
    [performRealAIAnalysis] suspended at their [await]); every browser
    event (a click, the timer, a progress callback, the settlement of the
    service promise, the unmount) is one atomic step on that record, as
    JavaScript runs each of them to completion. *)

From Stdlib Require Import QArith Qround Qabs Ascii.
From stdpp Require Import gmap strings list fin_maps pretty.

Open Scope string_scope.

(** ** Values *)

(** The [type] argument of [addLog]; the component uses these eight. *)
Inductive LogType :=
| t_system | t_info | t_progress | t_success | t_result
| t_reasoning | t_forecast | t_error.

Record LogEntry := mkLog {
  id : Q;
  timestamp : string;
  message : string;
  type : LogType
}.

(** The JavaScript values the component reads and writes in a result
    object.  Numbers are the finite ones. *)
Inductive JsValue :=
| VUndefined
| VNull
| VBool (b : bool)
| VNum (q : Q)
| VStr (s : string)
| VLogs (l : list LogEntry).

(** A result object: own properties by name. *)
Abbreviation JsObject := (gmap string JsValue).

(** [o.k]: a missing property reads as [undefined]. *)
Definition get (o : JsObject) (k : string) : JsValue :=
  match o !! k with Some v => v | None => VUndefined end.

Record Error := mkError { err_message : string }.

(** The stock the panel is bound to.  The component reads the price and
    the change through [?.], so they may be missing; [newsCount] is only
    rendered. *)
Record Stock := mkStock {
  ticker : string;
  currentPrice : option Q;
  changePercent : option Q;
  newsCount : JsValue
}.

(** The props the lifecycle reads.  The two callbacks are optional
    ([f?.(x)]): the record says whether each is supplied, and a call of a
    supplied callback, which returns normally, is recorded as an
    [Effect].  [onClose] and
    [isActive] play no part in the lifecycle.  The props are those of the
    mount for the life of the instance. *)
Record Props := mkProps {
  stock : Stock;
  onAnalysisComplete : bool;
  onAnalysisStart : bool;
  savedLogs : option (list LogEntry);
  savedResult : option JsObject;
  autoStart : bool
}.

(** ** What the JavaScript runtime supplies

    Number and string rendering, the engine's [TypeError]s and the wall
    clock are the runtime's, not the component's: the development is
    parametric in them. *)
Class JsRuntime := {
  (** [n.toFixed(d)] *)
  toFixed : Q -> nat -> string;
  (** a number inside a template literal *)
  numToString : Q -> string;
  (** [s.toUpperCase()] *)
  toUpperCase : string -> string;
  (** the [TypeError] of calling method [m] on a value that has none *)
  typeError : JsValue -> string -> Error;
  (** [Date.now() + Math.random()] at the [n]-th call of [addLog] *)
  dateNowRandom : nat -> Q;
  (** [new Date().toLocaleTimeString()] at the [n]-th call of [addLog] *)
  toLocaleTimeString : nat -> string
}.

(** [x > 0] and [x < 0] on numbers. *)
Definition gt0 (q : Q) : bool := (0 <? Qnum q)%Z.
Definition lt0 (q : Q) : bool := (Qnum q <? 0)%Z.

(** ** The component's state *)

(** What the component does to the outside. *)
Inductive Effect :=
| SetTimeout (ms : nat)
| OnAnalysisStart (t : string)
| AnalyzeStock (r : nat) (s : Stock)
| OnAnalysisComplete (t : string) (res : JsObject).

(** [logs], [analyzing], [complete] and [result] are the [useState]
    cells and [analysisInProgress] is the [useRef] guard.  [mounted] is
    React's: a state setter called on an unmounted component does
    nothing.  [timers] counts the pending auto-start callbacks.
    [awaiting] holds the invocations of [performRealAIAnalysis] suspended
    at their [await], each under the number of the service call it waits
    for and with its local array [allLogs].  [calls] counts the service
    calls made so far, [clock] the calls of [addLog], and [effects] lists
    what was done to the outside, oldest first. *)
Record State := mkState {
  logs : list LogEntry;
  analyzing : bool;
  complete : bool;
  result : option JsObject;
  analysisInProgress : bool;
  mounted : bool;
  timers : nat;
  awaiting : gmap nat (list LogEntry);
  calls : nat;
  clock : nat;
  effects : list Effect
}.

Definition set_logs (x : list LogEntry) (st : State) : State :=
  mkState x (analyzing st) (complete st) (result st) (analysisInProgress st) (mounted st) (timers st) (awaiting st) (calls st) (clock st) (effects st).

Definition set_analyzing (x : bool) (st : State) : State :=
  mkState (logs st) x (complete st) (result st) (analysisInProgress st) (mounted st) (timers st) (awaiting st) (calls st) (clock st) (effects st).

Definition set_complete (x : bool) (st : State) : State :=
  mkState (logs st) (analyzing st) x (result st) (analysisInProgress st) (mounted st) (timers st) (awaiting st) (calls st) (clock st) (effects st).

Definition set_result (x : option JsObject) (st : State) : State :=
  mkState (logs st) (analyzing st) (complete st) x (analysisInProgress st) (mounted st) (timers st) (awaiting st) (calls st) (clock st) (effects st).

Definition set_analysisInProgress (x : bool) (st : State) : State :=
  mkState (logs st) (analyzing st) (complete st) (result st) x (mounted st) (timers st) (awaiting st) (calls st) (clock st) (effects st).

Definition set_mounted (x : bool) (st : State) : State :=
  mkState (logs st) (analyzing st) (complete st) (result st) (analysisInProgress st) x (timers st) (awaiting st) (calls st) (clock st) (effects st).

Definition set_timers (x : nat) (st : State) : State :=
  mkState (logs st) (analyzing st) (complete st) (result st) (analysisInProgress st) (mounted st) x (awaiting st) (calls st) (clock st) (effects st).

Definition set_awaiting (x : gmap nat (list LogEntry)) (st : State) : State :=
  mkState (logs st) (analyzing st) (complete st) (result st) (analysisInProgress st) (mounted st) (timers st) x (calls st) (clock st) (effects st).

Definition set_calls (x : nat) (st : State) : State :=
  mkState (logs st) (analyzing st) (complete st) (result st) (analysisInProgress st) (mounted st) (timers st) (awaiting st) x (clock st) (effects st).

Definition set_clock (x : nat) (st : State) : State :=
  mkState (logs st) (analyzing st) (complete st) (result st) (analysisInProgress st) (mounted st) (timers st) (awaiting st) (calls st) x (effects st).

Definition set_effects (x : list Effect) (st : State) : State :=
  mkState (logs st) (analyzing st) (complete st) (result st) (analysisInProgress st) (mounted st) (timers st) (awaiting st) (calls st) (clock st) x.

(** ** Running the body of an async function

    A computation works on the component's state and on the local array
    [allLogs] of the invocation it belongs to, and completes normally or
    by a throw. *)
Record Frame := mkFrame {
  fr_state : State;
  fr_allLogs : list LogEntry
}.

Inductive Completion (A : Type) :=
| Normal (a : A)
| Throw (e : Error).
Arguments Normal {A} a.
Arguments Throw {A} e.

Definition M (A : Type) : Type := Frame -> Completion A * Frame.

Definition ret {A} (a : A) : M A := fun fr => (Normal a, fr).

Definition bind {A B} (m : M A) (k : A -> M B) : M B :=
  fun fr =>
    match m fr with
    | (Normal a, fr') => k a fr'
    | (Throw e, fr') => (Throw e, fr')
    end.

Definition throw {A} (e : Error) : M A := fun fr => (Throw e, fr).

Declare Scope js_scope.
Delimit Scope js_scope with js.
Notation "x <- m ;; k" := (bind m (fun x => k))
  (at level 100, m at next level, right associativity) : js_scope.
Notation "m ;;; k" := (bind m (fun _ => k))
  (at level 100, right associativity) : js_scope.

Definition gets {A} (f : State -> A) : M A :=
  fun fr => (Normal (f (fr_state fr)), fr).

Definition modify (f : State -> State) : M unit :=
  fun fr => (Normal tt, mkFrame (f (fr_state fr)) (fr_allLogs fr)).

(** [try { body } catch (e) { handler } finally { fin }]: the handler
    sees the state the body left; [fin] runs on every path and, when it
    completes normally, the completion of the body or handler stands. *)
Definition try_catch_finally (body : M unit) (handler : Error -> M unit)
    (fin : M unit) : M unit :=
  fun fr =>
    match body fr with
    | (Normal _, fr1) => fin fr1
    | (Throw e, fr1) =>
        match handler e fr1 with
        | (Normal _, fr2) => fin fr2
        | (Throw e', fr2) =>
            match fin fr2 with
            | (Normal _, fr3) => (Throw e', fr3)
            | (Throw e'', fr3) => (Throw e'', fr3)
            end
        end
    end.

(** ** The component *)

Section AIWorker.
Context {rt : JsRuntime}.
Open Scope js_scope.

(** A value inside a template literal. *)
Definition toString (v : JsValue) : string :=
  match v with
  | VUndefined => "undefined"
  | VNull => "null"
  | VBool true => "true"
  | VBool false => "false"
  | VNum q => numToString q
  | VStr s => s
  | VLogs l => String.concat "," (map (fun _ => "[object Object]") l)
  end.

(** [${x?.toFixed(d)}] *)
Definition optFixed (x : option Q) (d : nat) : string :=
  match x with
  | Some q => toFixed q d
  | None => "undefined"
  end.

(** [${x > 0 ? '+' : ''}] *)
Definition plusSign (x : option Q) : string :=
  match x with
  | Some q => if gt0 q then "+" else ""
  | None => ""
  end.

(** [v.toUpperCase()] and [v.toFixed(d)]: only a string has the one and
    only a number the other. *)
Definition callToUpperCase (v : JsValue) : M string :=
  match v with
  | VStr s => ret (toUpperCase s)
  | _ => throw (typeError v "toUpperCase")
  end.

Definition callToFixed (v : JsValue) (d : nat) : M string :=
  match v with
  | VNum q => ret (toFixed q d)
  | _ => throw (typeError v "toFixed")
  end.

(** A [useState] setter. *)
Definition setState (f : State -> State) : M unit :=
  modify (fun st => if mounted st then f st else st).

Definition setLogs (f : list LogEntry -> list LogEntry) : M unit :=
  setState (fun st => set_logs (f (logs st)) st).
Definition setAnalyzing (b : bool) : M unit := setState (set_analyzing b).
Definition setComplete (b : bool) : M unit := setState (set_complete b).
Definition setResult (r : option JsObject) : M unit := setState (set_result r).

(** [analysisInProgress.current = b] *)
Definition setInProgress (b : bool) : M unit :=
  modify (set_analysisInProgress b).

Definition emit (e : Effect) : M unit :=
  modify (fun st => set_effects (effects st ++ [e])%list st).

(** [allLogs.push(l)] and a read of [allLogs]. *)
Definition push (l : LogEntry) : M unit :=
  fun fr => (Normal tt, mkFrame (fr_state fr) (fr_allLogs fr ++ [l])%list).

Definition readAllLogs : M (list LogEntry) :=
  fun fr => (Normal (fr_allLogs fr), fr).

Definition addLog (message : string) (type : LogType) : M LogEntry :=
  n <- gets clock ;;
  let newLog := mkLog (dateNowRandom n) (toLocaleTimeString n) message type in
  modify (set_clock (S n)) ;;;
  setLogs (fun prev => (prev ++ [newLog])%list) ;;;
  ret newLog.

(** [onAnalysisStart?.(stock.ticker)] and
    [onAnalysisComplete?.(stock.ticker, r)] *)
Definition callOnAnalysisStart (p : Props) : M unit :=
  if onAnalysisStart p then emit (OnAnalysisStart (ticker (stock p)))
  else ret tt.

Definition callOnAnalysisComplete (p : Props) (r : JsObject) : M unit :=
  if onAnalysisComplete p then emit (OnAnalysisComplete (ticker (stock p)) r)
  else ret tt.

(** [geminiService.analyzeStock(stock, onProgress)]: the call is
    dispatched and numbered; its promise is what the caller awaits. *)
Definition analyzeStock (s : Stock) : M nat :=
  r <- gets calls ;;
  modify (set_calls (S r)) ;;;
  emit (AnalyzeStock r s) ;;;
  ret r.

(** Lines 81-85: what [performRealAIAnalysis] does past its guard and
    before its [try]. *)
Definition prelude (p : Props) : M unit :=
  setInProgress true ;;;
  setAnalyzing true ;;;
  setComplete false ;;;
  setLogs (fun _ => []) ;;;
  callOnAnalysisStart p.

(** The template literals of lines 90, 93, 96, 111, 114, 120 and 135. *)
Definition startMessage (s : Stock) : string :=
  "🤖 Starting AI analysis for " ++ ticker s ++ "...".

Definition priceMessage (s : Stock) : string :=
  "📊 Price: $" ++ optFixed (currentPrice s) 2 ++ " ("
  ++ plusSign (changePercent s) ++ optFixed (changePercent s) 2 ++ "%)".

Definition newsMessage (s : Stock) : string :=
  "📰 Analyzing " ++ toString (newsCount s) ++ " news articles...".

Definition signalMessage (signal : string) (aiResult : JsObject) : string :=
  "🎯 Signal: " ++ signal ++ " ("
  ++ toString (get aiResult "buyPercentage") ++ "%)".

Definition reasoningMessage (aiResult : JsObject) : string :=
  "💭 " ++ toString (get aiResult "reasoning").

Definition movementDirection (q : Q) : string :=
  if gt0 q then "📈" else if lt0 q then "📉" else "➡️".

Definition movementMessage (q : Q) (fixed : string) : string :=
  movementDirection q ++ " EOD Movement: "
  ++ (if gt0 q then "+" else "") ++ fixed ++ "%".

Definition failureMessage (err : Error) : string :=
  "❌ Analysis failed: " ++ err_message err.

(** The [await] splits the [try] block: lines 90-103 run in the step that
    starts the run, lines 108-132 in the step that settles the promise. *)
Definition tryBeforeAwait (p : Props) : M nat :=
  let s := stock p in
  log1 <- addLog (startMessage s) t_system ;;
  push log1 ;;;
  log2 <- addLog (priceMessage s) t_info ;;
  push log2 ;;;
  log3 <- addLog (newsMessage s) t_info ;;
  push log3 ;;;
  log4 <- addLog "🧠 Sending to Gemini AI..." t_system ;;
  push log4 ;;;
  analyzeStock s.

(** Lines 118-122.  The direction and the sign are computed before
    [toFixed] is called, without an effect; a defined movement that is not
    a number throws there, before [addLog]. *)
Definition logEodMovement (v : JsValue) : M unit :=
  match v with
  | VUndefined | VNull => ret tt
  | VNum q =>
      fixed <- callToFixed v 1 ;;
      log8 <- addLog (movementMessage q fixed) t_forecast ;;
      push log8
  | _ => fixed <- callToFixed v 1 ;; ret tt
  end.

Definition tryAfterAwait (p : Props) (aiResult : JsObject) : M unit :=
  log5 <- addLog "✅ AI analysis complete" t_success ;;
  push log5 ;;;
  signal <- callToUpperCase (get aiResult "signal") ;;
  log6 <- addLog (signalMessage signal aiResult) t_result ;;
  push log6 ;;;
  log7 <- addLog (reasoningMessage aiResult) t_reasoning ;;
  push log7 ;;;
  logEodMovement (get aiResult "eodMovement") ;;;
  all <- readAllLogs ;;
  let finalResult := <["savedLogs" := VLogs all]> aiResult in
  setComplete true ;;;
  setResult (Some finalResult) ;;;
  callOnAnalysisComplete p finalResult.

Definition fallbackResult (all : list LogEntry) : JsObject :=
  <["buyPercentage" := VNum 30]>
  (<["signal" := VStr "hold"]>
  (<["reasoning" := VStr "AI service unavailable"]>
  (<["eodMovement" := VNum 0]>
  (<["confidence" := VNum 0.2]>
  (<["savedLogs" := VLogs all]> ∅))))).

Definition catchBlock (p : Props) (err : Error) : M unit :=
  errorLog <- addLog (failureMessage err) t_error ;;
  push errorLog ;;;
  all <- readAllLogs ;;
  setResult (Some (fallbackResult all)) ;;;
  callOnAnalysisComplete p (fallbackResult all).

Definition finallyBlock : M unit :=
  setAnalyzing false ;;;
  setInProgress false.

(** How the awaited promise settles. *)
Inductive Settlement :=
| Resolved (aiResult : JsObject)
| Rejected (err : Error).

(** A run starts: the guard, lines 81-103, and the suspension at the
    [await].  [analyzing_seen] is the value of [analyzing] in the closure
    that is called (the one of the render that created it). *)
Definition performRealAIAnalysis (p : Props) (analyzing_seen : bool)
    (st : State) : State :=
  if analyzing_seen || analysisInProgress st then st
  else
    let fr1 := snd (prelude p (mkFrame st [])) in
    match tryBeforeAwait p fr1 with
    | (Normal r, fr2) =>
        set_awaiting (<[r := fr_allLogs fr2]> (awaiting (fr_state fr2)))
                     (fr_state fr2)
    | (Throw e, fr2) =>
        fr_state (snd (try_catch_finally (throw e) (catchBlock p)
                                         finallyBlock fr2))
    end.

(** The progress callback of call [r] (lines 103-106). *)
Definition onProgress (r : nat) (progressMessage : string) (st : State)
    : State :=
  match awaiting st !! r with
  | None => st
  | Some all =>
      let fr := snd ((progressLog <- addLog progressMessage t_progress ;;
                      push progressLog) (mkFrame st all)) in
      set_awaiting (<[r := fr_allLogs fr]> (awaiting (fr_state fr)))
                   (fr_state fr)
  end.

(** The promise of call [r] settles and the invocation that awaits it
    resumes: the rest of the [try] block or a throw at the [await], then
    [catch] and [finally].  The completion returned is the one of the
    async function itself. *)
Definition resume (p : Props) (s : Settlement) : M unit :=
  try_catch_finally
    (match s with
     | Resolved aiResult => tryAfterAwait p aiResult
     | Rejected err => throw err
     end)
    (catchBlock p) finallyBlock.

Definition settle (p : Props) (r : nat) (s : Settlement) (st : State)
    : Completion unit * State :=
  match awaiting st !! r with
  | None => (Normal tt, st)
  | Some all =>
      let out := resume p s (mkFrame (set_awaiting (delete r (awaiting st)) st)
                                     all) in
      (fst out, fr_state (snd out))
  end.

(** *** Mount and unmount *)

(** [useState] initial values: [savedLogs || []], [false],
    [!!savedResult], [savedResult]; [useRef(false)]. *)
Definition init (p : Props) : State :=
  mkState (match savedLogs p with Some l => l | None => [] end)
          false
          (match savedResult p with Some _ => true | None => false end)
          (savedResult p)
          false true 0 ∅ 0 0 [].

(** [savedResult || (savedLogs && savedLogs.length > 0)], as a truth
    value. *)
Definition hasExistingAnalysis (p : Props) : bool :=
  match savedResult p with
  | Some _ => true
  | None =>
      match savedLogs p with
      | Some (_ :: _) => true
      | _ => false
      end
  end.

(** The auto-start effect (lines 26-39). *)
Definition autoStartEffect (p : Props) (st : State) : State :=
  if autoStart p && negb (analyzing st) && negb (complete st)
     && negb (hasExistingAnalysis p) && negb (analysisInProgress st)
  then set_effects (effects st ++ [SetTimeout 500])%list
         (set_timers (S (timers st)) st)
  else st.

(** The effect that loads the saved logs (lines 42-48). *)
Definition loadSavedEffect (p : Props) (st : State) : State :=
  match savedLogs p with
  | Some (x :: l) =>
      set_result (savedResult p)
        (set_complete (match savedResult p with Some _ => true | None => false end)
           (set_logs (x :: l) st))
  | _ => st
  end.

(** The first render and its effects. *)
Definition mount (p : Props) : State :=
  loadSavedEffect p (autoStartEffect p (init p)).

(** The cleanup of the last effect (lines 157-161). *)
Definition unmount (st : State) : State :=
  if mounted st then set_mounted false (set_analysisInProgress false st)
  else st.

(** *** Events *)

(** Modelled from the spec: the analysis service
    ([services/GeminiService], not among the sources) is the environment.
    It invokes [onProgress] zero or more times before it settles a call,
    and settles each call once, by a result or by an error.

    The events: a click on "Analyze with AI" or "Re-analyze", the
    auto-start timer firing, the service reporting progress on call [r]
    or settling it, and the unmount.  An event for a call that is not
    pending, a click on an unmounted component and a timer that was not
    set do nothing. *)
Inductive Event :=
| Click
| TimerFires
| Progress (r : nat) (progressMessage : string)
| Resolve (r : nat) (aiResult : JsObject)
| Reject (r : nat) (err : Error)
| Unmount.

(** The handler of each event.  A click calls the
    [performRealAIAnalysis] of the last render, whose [analyzing] is the
    current one; the timer calls the one of the first render, whose
    [analyzing] is [false]. *)
Definition step (p : Props) (st : State) (ev : Event) : State :=
  match ev with
  | Click =>
      if mounted st then performRealAIAnalysis p (analyzing st) st else st
  | TimerFires =>
      match timers st with
      | O => st
      | S n => performRealAIAnalysis p false (set_timers n st)
      end
  | Progress r m => onProgress r m st
  | Resolve r aiResult => snd (settle p r (Resolved aiResult) st)
  | Reject r err => snd (settle p r (Rejected err) st)
  | Unmount => unmount st
  end.

(** The state after the mount and the events [evs], in this order. *)
Definition run (p : Props) (evs : list Event) : State :=
  fold_left (step p) evs (mount p).

Inductive reachable (p : Props) : State -> Prop :=
| reachable_mount : reachable p (mount p)
| reachable_step st ev : reachable p st -> reachable p (step p st ev).

End AIWorker.

(** ** A runtime for the examples

    It renders integers in decimal and other numbers rounded half away
    from zero to the digits asked for (one digit in a template literal),
    maps the letters [a]-[z] to upper case, words its [TypeError]s as V8
    does and lets the clock tick once per log entry. *)
Module Example.

Definition pad (d : nat) (s : string) : string :=
  String.concat "" (replicate (d - String.length s) "0") ++ s.

Definition fixed (q : Q) (d : nat) : string :=
  let scale := (10 ^ Z.of_nat d)%Z in
  let n := Qfloor (Qabs q * inject_Z scale + (1 # 2))%Q in
  (if lt0 q then "-" else "")
  ++ pretty (n / scale)%Z
  ++ match d with
     | O => ""
     | _ => "." ++ pad d (pretty (n mod scale)%Z)
     end.

Definition upper (a : Ascii.ascii) : Ascii.ascii :=
  let n := nat_of_ascii a in
  if (97 <=? n)%nat && (n <=? 122)%nat then ascii_of_nat (n - 32) else a.

Fixpoint upperString (s : string) : string :=
  match s with
  | EmptyString => EmptyString
  | String a s' => String (upper a) (upperString s')
  end.

Definition noMethod (v : JsValue) (m : string) : Error :=
  match v with
  | VUndefined =>
      mkError ("Cannot read properties of undefined (reading '" ++ m ++ "')")
  | VNull =>
      mkError ("Cannot read properties of null (reading '" ++ m ++ "')")
  | _ => mkError (m ++ " is not a function")
  end.

Definition runtime : JsRuntime := {|
  toFixed := fixed;
  numToString := fun q =>
    match Qden q with
    | xH => pretty (Qnum q)
    | _ => fixed q 1
    end;
  toUpperCase := upperString;
  typeError := noMethod;
  dateNowRandom := fun n => inject_Z (Z.of_nat n);
  toLocaleTimeString := fun n => pretty n
|}.

Definition AAPL : Stock :=
  mkStock "AAPL" (Some (18945 # 100)) (Some (125 # 100)) (VNum 7).

(** A panel without a snapshot, with both callbacks. *)
Definition fresh (auto : bool) : Props :=
  mkProps AAPL true true None None auto.

(** The resolution of the specification's example. *)
Definition strongMomentum : JsObject :=
  <["signal" := VStr "buy"]>
  (<["buyPercentage" := VNum 72]>
  (<["reasoning" := VStr "strong momentum"]>
  (<["eodMovement" := VNum 1.8]>
  (<["confidence" := VNum 0.81]> ∅)))).

(** The rejection of the specification's example. *)
Definition timeout : Error := mkError "timeout".

(** A panel that is given the snapshot of an earlier analysis. *)
Definition restored : Props :=
  mkProps AAPL true true
          (Some [mkLog 0 "0" "✅ AI analysis complete" t_success])
          (Some strongMomentum) true.

End Example.

(** * Closed forms and predicates

    The state each kind of step leaves, written out; the transition
    relation they make up; the invariants; and what the claims speak
    about along a trace. *)

Open Scope list_scope.

Section Forms.
Context {rt : JsRuntime}.

(** The entry [addLog] makes at its [n]-th call. *)
Definition entry (n : nat) (message : string) (type : LogType) : LogEntry :=
  mkLog (dateNowRandom n) (toLocaleTimeString n) message type.

(** The four entries of lines 90-100, the clock standing at [n]. *)
Definition startupLogs (p : Props) (n : nat) : list LogEntry :=
  [ entry n (startMessage (stock p)) t_system;
    entry (S n) (priceMessage (stock p)) t_info;
    entry (S (S n)) (newsMessage (stock p)) t_info;
    entry (S (S (S n))) "🧠 Sending to Gemini AI..." t_system ].

Definition startEffects (p : Props) (r : nat) : list Effect :=
  (if onAnalysisStart p then [OnAnalysisStart (ticker (stock p))] else [])
  ++ [AnalyzeStock r (stock p)].

Definition completeEffects (p : Props) (res : JsObject) : list Effect :=
  if onAnalysisComplete p then [OnAnalysisComplete (ticker (stock p)) res]
  else [].

(** The state a run leaves when it starts. *)
Definition started (p : Props) (st : State) : State :=
  let new := startupLogs p (clock st) in
  mkState (if mounted st then new else logs st)
          (if mounted st then true else analyzing st)
          (if mounted st then false else complete st)
          (result st)
          true
          (mounted st)
          (timers st)
          (<[calls st := new]> (awaiting st))
          (S (calls st))
          (4 + clock st)
          (effects st ++ startEffects p (calls st)).

(** The state a progress callback of call [r] leaves, [all] being the
    array [allLogs] of the invocation that made the call. *)
Definition progressed (r : nat) (m : string) (all : list LogEntry)
    (st : State) : State :=
  let l := entry (clock st) m t_progress in
  mkState (if mounted st then logs st ++ [l] else logs st)
          (analyzing st) (complete st) (result st) (analysisInProgress st)
          (mounted st) (timers st)
          (<[r := all ++ [l]]> (awaiting st))
          (calls st) (S (clock st)) (effects st).

(** What the rest of the [try] block appends, the clock standing at [n],
    and what it throws. *)
Definition tried (aiResult : JsObject) (n : nat)
    : list LogEntry * option Error :=
  let log5 := entry n "✅ AI analysis complete" t_success in
  match get aiResult "signal" with
  | VStr s =>
      let log6 :=
        entry (S n) (signalMessage (toUpperCase s) aiResult) t_result in
      let log7 := entry (S (S n)) (reasoningMessage aiResult) t_reasoning in
      match get aiResult "eodMovement" with
      | VUndefined | VNull => ([log5; log6; log7], None)
      | VNum q =>
          ([log5; log6; log7;
            entry (S (S (S n))) (movementMessage q (toFixed q 1)) t_forecast],
           None)
      | v => ([log5; log6; log7], Some (typeError v "toFixed"))
      end
  | v => ([log5], Some (typeError v "toUpperCase"))
  end.

Definition triedLogs (s : Settlement) (n : nat) : list LogEntry :=
  match s with
  | Resolved aiResult => fst (tried aiResult n)
  | Rejected _ => []
  end.

(** The error the [catch] block receives, if any. *)
Definition caught (s : Settlement) : option Error :=
  match s with
  | Resolved aiResult => snd (tried aiResult 0)
  | Rejected err => Some err
  end.

(** The entries a settlement appends. *)
Definition settledLogs (s : Settlement) (n : nat) : list LogEntry :=
  triedLogs s n
  ++ match caught s with
     | Some err =>
         [entry (length (triedLogs s n) + n) (failureMessage err) t_error]
     | None => []
     end.

(** The result a settled run hands over: [finalResult] or
    [fallbackResult]. *)
Definition delivered (s : Settlement) (saved : list LogEntry) : JsObject :=
  match s, caught s with
  | Resolved aiResult, None => <["savedLogs" := VLogs saved]> aiResult
  | _, _ => fallbackResult saved
  end.

(** The state a settlement of call [r] leaves. *)
Definition settled (p : Props) (r : nat) (s : Settlement)
    (all : list LogEntry) (st : State) : State :=
  let new := settledLogs s (clock st) in
  let res := delivered s (all ++ new) in
  mkState (if mounted st then logs st ++ new else logs st)
          (if mounted st then false else analyzing st)
          (if mounted st
           then match caught s with None => true | Some _ => complete st end
           else complete st)
          (if mounted st then Some res else result st)
          false
          (mounted st)
          (timers st)
          (delete r (awaiting st))
          (calls st)
          (length new + clock st)
          (effects st ++ completeEffects p res).

(** An entry made by the [n]-th call of [addLog] or a later one. *)
Definition madeSince (n0 : nat) (l : LogEntry) : Prop :=
  exists n m t, n0 <= n /\ l = entry n m t.

(** What one event that does not settle call [r] appends to the
    [allLogs] of the invocation awaiting [r]. *)
Definition progressLogs (r n : nat) (ev : Event) : list LogEntry :=
  match ev with
  | Progress r' m =>
      if bool_decide (r' = r) then [entry n m t_progress] else []
  | _ => []
  end.

End Forms.

Section Predicates.
Context {rt : JsRuntime}.
Variable p : Props.

(** What a step does to the state, event by event: a timer is consumed,
    a run starts, a progress callback or a settlement reaches the
    invocation that awaits the call, the component unmounts. *)
Inductive transition (st : State) : State -> Prop :=
| tr_timer n :
    timers st = S n -> transition st (set_timers n st)
| tr_start :
    analysisInProgress st = false -> transition st (started p st)
| tr_progress r m all :
    awaiting st !! r = Some all -> transition st (progressed r m all st)
| tr_settle r s all :
    awaiting st !! r = Some all -> transition st (settled p r s all st)
| tr_unmount :
    mounted st = true ->
    transition st (set_mounted false (set_analysisInProgress false st)).

(** [analyzing] and [complete] are not both set. *)
Definition flags_inv (st : State) : Prop :=
  analyzing st && complete st = false.

(** A result is there once [complete] is set or a snapshot brought one;
    it is never taken away. *)
Definition result_inv (st : State) : Prop :=
  complete st = true \/ is_Some (savedResult p) -> is_Some (result st).

(** While the guard is set a call is pending; while the component is
    mounted, [analyzing] follows the guard, a set guard means exactly one
    pending call, whose [allLogs] is what [logs] shows, and a clear guard
    means none. *)
Definition guard_inv (st : State) : Prop :=
  (analysisInProgress st = true -> awaiting st <> ∅) /\
  (mounted st = true ->
   analyzing st = analysisInProgress st /\
   if analysisInProgress st
   then exists r all, awaiting st = {[r := all]} /\ logs st = all
   else awaiting st = ∅).

(** Pending calls are among the calls made. *)
Definition ids_inv (st : State) : Prop :=
  forall r all, awaiting st !! r = Some all -> r < calls st.

(** The [allLogs] of a pending invocation: the four startup entries, then
    progress entries only. *)
Definition shape_inv (st : State) : Prop :=
  forall r all, awaiting st !! r = Some all ->
  exists n progs,
    all = startupLogs p n ++ progs /\
    Forall (fun l => type l = t_progress) progs.

End Predicates.

(** The event settles call [r]. *)
Definition settles (r : nat) (ev : Event) : bool :=
  match ev with
  | Resolve r' _ | Reject r' _ => bool_decide (r' = r)
  | _ => false
  end.

(** The messages the service reports on call [r] along a trace. *)
Fixpoint progressOf (r : nat) (evs : list Event) : list string :=
  match evs with
  | [] => []
  | Progress r' m :: evs' =>
      if bool_decide (r' = r) then m :: progressOf r evs'
      else progressOf r evs'
  | _ :: evs' => progressOf r evs'
  end.

(** The events on which a run or the component ends: the settlement of
    a pending call and the unmount of a mounted component. *)
Definition exits (st : State) (ev : Event) : Prop :=
  match ev with
  | Resolve r _ | Reject r _ => is_Some (awaiting st !! r)
  | Unmount => mounted st = true
  | _ => False
  end.

(** The equivalence the specification states between a result being
    present and [complete] or a snapshot's result. *)
Definition result_iff_complete (p : Props) (st : State) : Prop :=
  is_Some (result st) <-> (complete st = true \/ is_Some (savedResult p)).

Definition isClick (ev : Event) : bool :=
  match ev with Click => true | _ => false end.

Definition isTimerFires (ev : Event) : bool :=
  match ev with TimerFires => true | _ => false end.

(** The service calls made so far, oldest first. *)
Definition dispatched (st : State) : list (nat * Stock) :=
  omap (fun e => match e with
                 | AnalyzeStock r s => Some (r, s)
                 | _ => None
                 end) (effects st).

(** The auto-start timer is pending and nothing has run yet. *)
Definition autoPending (st : State) : Prop :=
  timers st = 1 /\ analysisInProgress st = false /\ awaiting st = ∅ /\
  calls st = 0 /\ dispatched st = [].

(** The auto-start timer has fired and made the one call. *)
Definition autoFired (p : Props) (st : State) : Prop :=
  timers st = 0 /\ dispatched st = [(0, stock p)].

(** How many effects of a kind were made. *)
Fixpoint count (f : Effect -> bool) (l : list Effect) : nat :=
  match l with
  | [] => 0
  | e :: l' => (if f e then 1 else 0) + count f l'
  end.

Definition isStart (e : Effect) : bool :=
  match e with OnAnalysisStart _ => true | _ => false end.

Definition isAnalyze (e : Effect) : bool :=
  match e with AnalyzeStock _ _ => true | _ => false end.

Definition isComplete (e : Effect) : bool :=
  match e with OnAnalysisComplete _ _ => true | _ => false end.

(** With both callbacks supplied: as many start notifications as
    service calls, and one completion per call that is no longer
    pending. *)
Definition counts_inv (st : State) : Prop :=
  count isStart (effects st) = calls st /\
  count isAnalyze (effects st) = calls st /\
  count isComplete (effects st) + size (awaiting st) = calls st.

(** * Rendering

    The helpers of lines 163-222 and the conditions under which the JSX
    of lines 224-436 shows each of its parts. *)

(** A value coerced to a number by a comparison: it may be infinite or
    not a number. *)
Inductive Num :=
| Fin (q : Q)
| PosInf
| NegInf
| NaN.

(** The string each log type is in the source. *)
Definition typeName (t : LogType) : string :=
  match t with
  | t_system => "system"
  | t_info => "info"
  | t_progress => "progress"
  | t_success => "success"
  | t_result => "result"
  | t_reasoning => "reasoning"
  | t_forecast => "forecast"
  | t_error => "error"
  end.

Definition getLogColor (type : string) : string :=
  match type with
  | "success" => "text-green-400"
  | "error" => "text-red-400"
  | "info" => "text-blue-300"
  | "result" => "text-purple-300"
  | "reasoning" => "text-yellow-300"
  | "forecast" => "text-emerald-300"
  | "system" => "text-gray-400"
  | "progress" => "text-cyan-300"
  | _ => "text-gray-300"
  end.

(** [!v] *)
Definition falsy (v : JsValue) : bool :=
  match v with
  | VUndefined | VNull | VBool false | VStr "" => true
  | VNum q => (Qnum q =? 0)%Z
  | _ => false
  end.

(** [n >= c], [n > 0] and [n < 0] on coerced numbers. *)
Definition geN (n : Num) (c : Q) : bool :=
  match n with
  | Fin q => Qle_bool c q
  | PosInf => true
  | _ => false
  end.

Definition gtN0 (n : Num) : bool :=
  match n with
  | Fin q => gt0 q
  | PosInf => true
  | _ => false
  end.

Definition ltN0 (n : Num) : bool :=
  match n with
  | Fin q => lt0 q
  | NegInf => true
  | _ => false
  end.

(** [s.replace('_', ' ')]: the first underscore only. *)
Fixpoint replaceUnderscore (s : string) : string :=
  match s with
  | EmptyString => EmptyString
  | String a s' =>
      if Ascii.eqb a "_"%char then String " "%char s'
      else String a (replaceUnderscore s')
  end.

(** The two texts of the empty terminal (lines 339-357). *)
Inductive Hint :=
| SavedHint
| FreshHint.

(** A line of the terminal (lines 315-324). *)
Record LogLine := mkLine {
  line_color : string;
  line_timestamp : string;
  line_message : string
}.

(** What the JSX shows: the "Analyzing..." and "Complete" badges and the
    "SAVED" badge (lines 254-268), the two start buttons (lines 275-294),
    the lines of the terminal, the "Processing" indicator (line 326), the
    text of the empty terminal (line 334) and the result the summary is
    drawn from (line 365). *)
Record View := mkView {
  analyzingBadge : bool;
  completeBadge : bool;
  savedBadge : bool;
  analyzeButton : bool;
  reanalyzeButton : bool;
  logLines : list LogLine;
  processing : bool;
  placeholder : option Hint;
  summary : option JsObject
}.

Definition logLine (log : LogEntry) : LogLine :=
  mkLine (getLogColor (typeName (type log))) (timestamp log) (message log).

Definition render (p : Props) (st : State) : View :=
  mkView (analyzing st)
         (complete st)
         (match savedLogs p with Some _ => true | None => false end)
         (negb (analyzing st) && negb (complete st))
         (complete st && negb (analyzing st))
         (map logLine (logs st))
         (analyzing st)
         (if Nat.eqb (length (logs st)) 0 && negb (analyzing st)
          then Some (match savedResult p with
                     | Some _ => SavedHint
                     | None => FreshHint
                     end)
          else None)
         (if complete st then result st else None).

Section Display.
Context {rt : JsRuntime}.

(** The number a string stands for in a comparison is the runtime's. *)
Variable stringToNumber : string -> Num.

(** The operand of [v >= c], [v > 0] and [v < 0] as a number.  An array
    is first joined into a string: the empty one gives the empty string,
    which counts 0, and one of log entries gives a text that is not a
    number. *)
Definition toNumber (v : JsValue) : Num :=
  match v with
  | VUndefined => NaN
  | VNull => Fin 0
  | VBool true => Fin 1
  | VBool false => Fin 0
  | VNum q => Fin q
  | VStr s => stringToNumber s
  | VLogs [] => Fin 0
  | VLogs (_ :: _) => NaN
  end.

Definition getSignalColor (buyPercentage : JsValue) : string :=
  if falsy buyPercentage then "text-gray-400"
  else if geN (toNumber buyPercentage) 80 then "text-green-400"
  else if geN (toNumber buyPercentage) 60 then "text-blue-400"
  else if geN (toNumber buyPercentage) 40 then "text-yellow-400"
  else "text-orange-400".

Definition getSignalIcon (buyPercentage : JsValue) : string :=
  if falsy buyPercentage then "❓"
  else if geN (toNumber buyPercentage) 80 then "🚀"
  else if geN (toNumber buyPercentage) 60 then "📈"
  else if geN (toNumber buyPercentage) 40 then "⚡"
  else "🤔".

(** Lines 203-207: the sign is computed first, then [toFixed] is called,
    which only a number has. *)
Definition formatEodMovement (movement : JsValue) : Completion string :=
  match movement with
  | VUndefined | VNull => Normal "N/A"
  | VNum q =>
      Normal ((if gt0 q then "+" else "") ++ toFixed q 1 ++ "%")%string
  | v => Throw (typeError v "toFixed")
  end.

Definition getEodMovementColor (movement : JsValue) : string :=
  match movement with
  | VUndefined | VNull => "text-gray-400"
  | v =>
      if gtN0 (toNumber v) then "text-green-400"
      else if ltN0 (toNumber v) then "text-red-400"
      else "text-gray-400"
  end.

Definition getEodMovementIcon (movement : JsValue) : string :=
  match movement with
  | VUndefined | VNull => "➡️"
  | v =>
      if gtN0 (toNumber v) then "📈"
      else if ltN0 (toNumber v) then "📉"
      else "➡️"
  end.

(** [result.signal.replace('_', ' ')] (line 381). *)
Definition signalLabel (signal : JsValue) : Completion string :=
  match signal with
  | VStr s => Normal (replaceUnderscore s)
  | v => Throw (typeError v "replace")
  end.

(** The two method calls of the summary find what they are called on. *)
Definition summaryCallsSucceed (res : JsObject) : Prop :=
  (exists label, signalLabel (get res "signal") = Normal label) /\
  (exists text, formatEodMovement (get res "eodMovement") = Normal text).

End Display.

(** The panel [p] with other choices of the two optional callbacks. *)
Definition withCallbacks (p : Props) (complete start : bool) : Props :=
  mkProps (stock p) complete start (savedLogs p) (savedResult p)
          (autoStart p).

(** * The steps in closed form *)

(** Runs the monad on a frame.  The flags a run branches on are
    destructed first, so that no conditional is left stuck under a
    continuation. *)
Ltac js_eval :=
  cbv [prelude callOnAnalysisStart callOnAnalysisComplete tryBeforeAwait
       tryAfterAwait logEodMovement callToUpperCase callToFixed catchBlock
       finallyBlock resume try_catch_finally throw bind ret gets modify
       setState setLogs setAnalyzing setComplete setResult setInProgress
       emit push readAllLogs addLog analyzeStock
       fst snd fr_state fr_allLogs
       logs analyzing complete result analysisInProgress mounted timers
       awaiting calls clock effects
       set_logs set_analyzing set_complete set_result set_analysisInProgress
       set_mounted set_timers set_awaiting set_calls set_clock set_effects].

Section Steps.
Context {rt : JsRuntime}.

Lemma performRealAIAnalysis_guarded p seen st :
  seen || analysisInProgress st = true ->
  performRealAIAnalysis p seen st = st.
Proof. intros H. unfold performRealAIAnalysis. now rewrite H. Qed.

Lemma performRealAIAnalysis_started p st :
  analysisInProgress st = false ->
  performRealAIAnalysis p false st = started p st.
Proof.
  intros H. unfold performRealAIAnalysis. rewrite H. cbn [orb].
  unfold started, startEffects, startupLogs, entry.
  destruct st as [lg an co re gu mo ti aw ca cl ef].
  cbn [analysisInProgress] in H. subst gu.
  unfold prelude, callOnAnalysisStart.
  destruct mo, (onAnalysisStart p); js_eval;
    rewrite <- ?app_assoc; reflexivity.
Qed.

Lemma onProgress_awaiting r m all st :
  awaiting st !! r = Some all ->
  onProgress r m st = progressed r m all st.
Proof.
  intros H. unfold onProgress. rewrite H.
  unfold progressed, entry.
  destruct st as [lg an co re gu mo ti aw ca cl ef].
  destruct mo; js_eval; reflexivity.
Qed.

Lemma onProgress_idle r m st :
  awaiting st !! r = None -> onProgress r m st = st.
Proof. intros H. unfold onProgress. now rewrite H. Qed.

Lemma settle_awaiting p r s all st :
  awaiting st !! r = Some all ->
  settle p r s st = (Normal tt, settled p r s all st).
Proof.
  intros H. unfold settle. rewrite H.
  unfold settled, settledLogs, delivered, caught, triedLogs, tried,
    completeEffects, entry.
  destruct st as [lg an co re gu mo ti aw ca cl ef].
  unfold resume, catchBlock, callOnAnalysisComplete.
  destruct s as [aiResult | err].
  - unfold tryAfterAwait, callOnAnalysisComplete, callToUpperCase,
      logEodMovement, callToFixed.
    destruct (get aiResult "signal") eqn:Hsig;
      [ .. | destruct (get aiResult "eodMovement") eqn:Heod | ];
      destruct mo, (onAnalysisComplete p); js_eval;
      rewrite <- ?app_assoc, ?app_nil_r; reflexivity.
  - destruct mo, (onAnalysisComplete p); js_eval;
      rewrite <- ?app_assoc, ?app_nil_r; reflexivity.
Qed.

Lemma settle_idle p r s st :
  awaiting st !! r = None -> settle p r s st = (Normal tt, st).
Proof. intros H. unfold settle. now rewrite H. Qed.

End Steps.

(** * Transitions and invariants *)

Section Invariants.
Context {rt : JsRuntime}.
Variable p : Props.

Lemma performRealAIAnalysis_transitions seen st :
  rtc (transition p) st (performRealAIAnalysis p seen st).
Proof.
  destruct (seen || analysisInProgress st) eqn:H.
  - rewrite performRealAIAnalysis_guarded by done. constructor.
  - apply orb_false_elim in H as [-> H].
    rewrite performRealAIAnalysis_started by done.
    apply rtc_once, tr_start, H.
Qed.

Lemma step_transitions st ev : rtc (transition p) st (step p st ev).
Proof.
  destruct ev as [ | | r m | r aiResult | r err | ]; cbn [step].
  - destruct (mounted st); [apply performRealAIAnalysis_transitions | constructor].
  - destruct (timers st) as [|n] eqn:Ht; [constructor|].
    eapply rtc_l; [apply (tr_timer p st n Ht) | apply performRealAIAnalysis_transitions].
  - destruct (awaiting st !! r) as [all|] eqn:H.
    + rewrite (onProgress_awaiting r m all) by done.
      apply rtc_once. now constructor.
    + rewrite onProgress_idle by done. constructor.
  - destruct (awaiting st !! r) as [all|] eqn:H.
    + rewrite (settle_awaiting p r _ all) by done.
      apply rtc_once. now constructor.
    + rewrite settle_idle by done. constructor.
  - destruct (awaiting st !! r) as [all|] eqn:H.
    + rewrite (settle_awaiting p r _ all) by done.
      apply rtc_once. now constructor.
    + rewrite settle_idle by done. constructor.
  - unfold unmount. destruct (mounted st) eqn:Hm; [|constructor].
    apply rtc_once. now constructor.
Qed.

(** A property that holds after the mount and that every transition
    keeps holds in every reachable state. *)
Lemma reachable_ind_transition (I : State -> Prop) :
  I (mount p) ->
  (forall st st', I st -> transition p st st' -> I st') ->
  forall st, reachable p st -> I st.
Proof.
  intros Hmount Hkeep st Hst.
  induction Hst as [|st ev _ IH]; [done|].
  pose proof (step_transitions st ev) as Hrtc.
  induction Hrtc as [|x y z Hxy _ IHrtc]; eauto.
Qed.

Lemma reachable_run evs : reachable p (run p evs).
Proof.
  unfold run. induction evs as [|ev evs IH] using rev_ind.
  - constructor.
  - rewrite fold_left_app. cbn. now constructor.
Qed.

Lemma mount_cells :
  analyzing (mount p) = false /\
  analysisInProgress (mount p) = false /\
  mounted (mount p) = true /\
  awaiting (mount p) = ∅ /\
  calls (mount p) = 0 /\
  complete (mount p) =
    match savedResult p with Some _ => true | None => false end /\
  result (mount p) = savedResult p /\
  logs (mount p) = (match savedLogs p with Some l => l | None => [] end).
Proof.
  unfold mount, loadSavedEffect, autoStartEffect, init, hasExistingAnalysis.
  destruct (savedLogs p) as [[|x l]|], (savedResult p), (autoStart p);
    cbn; repeat split.
Qed.

Lemma flags_reachable st : reachable p st -> flags_inv st.
Proof.
  apply reachable_ind_transition.
  - unfold flags_inv. now rewrite (proj1 mount_cells).
  - unfold flags_inv. intros st0 st' H Ht.
    destruct Ht; cbn; try done; destruct (mounted st0); done.
Qed.

Lemma result_reachable st : reachable p st -> result_inv p st.
Proof.
  apply reachable_ind_transition.
  - unfold result_inv.
    destruct mount_cells as (_ & _ & _ & _ & _ & -> & -> & _).
    destruct (savedResult p); intros [H|H]; try done; by inversion H.
  - unfold result_inv. intros st0 st' H Ht.
    destruct Ht; cbn; try done; destruct (mounted st0); try done;
      intros [?|?]; by eauto.
Qed.

Lemma guard_reachable st : reachable p st -> guard_inv st.
Proof.
  apply reachable_ind_transition.
  - unfold guard_inv.
    destruct mount_cells as (-> & -> & _ & -> & _).
    split; [done | auto].
  - unfold guard_inv. intros st0 st' [Hg Hm] Ht.
    destruct Ht as [n Hn | Hoff | r m all Hr | r s all Hr | Hon];
      cbn -[startupLogs].
    + done.
    + split.
      * intros _ Habs. by apply insert_non_empty in Habs.
      * intros Hon. rewrite Hon in *. specialize (Hm eq_refl).
        rewrite Hoff in Hm. destruct Hm as [_ Hm].
        split; [done|]. eexists _, _. split; [|done].
        by rewrite Hm, insert_empty.
    + split.
      * intros _ Habs. by apply insert_non_empty in Habs.
      * intros Hon. rewrite Hon in *. specialize (Hm eq_refl).
        destruct Hm as [Hm1 Hm2]. split; [done|].
        destruct (analysisInProgress st0).
        -- destruct Hm2 as (r0 & all0 & Hone & Hlogs).
           rewrite Hone in Hr.
           apply lookup_singleton_Some in Hr as [<- <-].
           exists r0, (all0 ++ [entry (clock st0) m t_progress]).
           split; [|by rewrite Hlogs].
           by rewrite Hone, insert_singleton_eq.
        -- by rewrite Hm2, lookup_empty in Hr.
    + split; [done|].
      intros Hon. rewrite Hon in *. specialize (Hm eq_refl).
      destruct Hm as [_ Hm2]. split; [done|].
      destruct (analysisInProgress st0).
      * destruct Hm2 as (r0 & all0 & Hone & _).
        rewrite Hone in Hr |- *.
        apply lookup_singleton_Some in Hr as [<- <-].
        by rewrite delete_singleton_eq.
      * by rewrite Hm2, lookup_empty in Hr.
    + done.
Qed.

Lemma ids_transition st st' :
  ids_inv st -> transition p st st' -> ids_inv st'.
Proof.
  unfold ids_inv. intros H Ht.
  destruct Ht as [n Hn | Hoff | r m all Hr | r s all Hr | Hon];
    cbn -[startupLogs]; intros r' all' H'.
  - eauto.
  - apply lookup_insert_Some in H' as [[<- _]|[_ H']]; [lia|].
    apply H in H'. lia.
  - apply lookup_insert_Some in H' as [[<- _]|[_ H']]; eauto.
  - apply lookup_delete_Some in H' as [_ H']. eauto.
  - eauto.
Qed.

Lemma ids_reachable st : reachable p st -> ids_inv st.
Proof.
  apply reachable_ind_transition.
  - unfold ids_inv. destruct mount_cells as (_ & _ & _ & -> & _).
    intros r all H. by rewrite lookup_empty in H.
  - apply ids_transition.
Qed.

Lemma shape_reachable st : reachable p st -> shape_inv p st.
Proof.
  apply reachable_ind_transition.
  - unfold shape_inv. destruct mount_cells as (_ & _ & _ & -> & _).
    intros r all H. by rewrite lookup_empty in H.
  - unfold shape_inv. intros st0 st' H Ht.
    destruct Ht as [n Hn | Hoff | r m all Hr | r s all Hr | Hon];
      cbn -[startupLogs]; intros r' all' H'.
    + eauto.
    + apply lookup_insert_Some in H' as [[_ <-]|[_ H']]; [|eauto].
      exists (clock st0), []. by rewrite app_nil_r.
    + apply lookup_insert_Some in H' as [[<- <-]|[_ H']]; [|eauto].
      destruct (H _ _ Hr) as (n & progs & -> & Hp).
      exists n, (progs ++ [entry (clock st0) m t_progress]).
      split; [by rewrite app_assoc|].
      apply Forall_app. split; [done|]. by constructor.
    + apply lookup_delete_Some in H' as [_ H']. eauto.
    + eauto.
Qed.

End Invariants.

(** * The specification's claims *)

Section Claims.
Context {rt : JsRuntime}.

Lemma gt0_spec q : gt0 q = true <-> (0 < q)%Q.
Proof. unfold gt0, Qlt. cbn. rewrite Z.ltb_lt. lia. Qed.

Lemma lt0_spec q : lt0 q = true <-> (q < 0)%Q.
Proof. unfold lt0, Qlt. cbn. rewrite Z.ltb_lt. lia. Qed.

Lemma movementDirection_sign q :
  ((0 < q)%Q -> movementDirection q = "📈") /\
  ((q < 0)%Q -> movementDirection q = "📉") /\
  ((q == 0)%Q -> movementDirection q = "➡️").
Proof.
  unfold movementDirection.
  destruct (gt0 q) eqn:Hg, (lt0 q) eqn:Hl;
    rewrite <- ?gt0_spec, <- ?lt0_spec, ?Hg, ?Hl;
    repeat split; try done;
    intros H; exfalso; revert Hg Hl H;
    unfold gt0, lt0, Qeq; cbn; rewrite ?Z.ltb_lt, ?Z.ltb_ge; lia.
Qed.

Lemma types_of_progress (progs : list LogEntry) :
  Forall (fun l => type l = t_progress) progs ->
  map type progs = replicate (length progs) t_progress.
Proof. induction 1 as [|l progs Hl _ IH]; cbn; congruence. Qed.

Lemma startupLogs_types p n :
  map type (startupLogs p n) = [t_system; t_info; t_info; t_system].
Proof. reflexivity. Qed.

Lemma tried_forecast aiResult s q n :
  get aiResult "signal" = VStr s ->
  get aiResult "eodMovement" = VNum q ->
  tried aiResult n =
    ([entry n "✅ AI analysis complete" t_success;
      entry (S n) (signalMessage (toUpperCase s) aiResult) t_result;
      entry (S (S n)) (reasoningMessage aiResult) t_reasoning;
      entry (S (S (S n))) (movementMessage q (toFixed q 1)) t_forecast],
     None).
Proof. intros Hs He. unfold tried. now rewrite Hs, He. Qed.

Lemma tried_no_forecast aiResult s n :
  get aiResult "signal" = VStr s ->
  get aiResult "eodMovement" = VUndefined \/
  get aiResult "eodMovement" = VNull ->
  tried aiResult n =
    ([entry n "✅ AI analysis complete" t_success;
      entry (S n) (signalMessage (toUpperCase s) aiResult) t_result;
      entry (S (S n)) (reasoningMessage aiResult) t_reasoning],
     None).
Proof. intros Hs [He|He]; unfold tried; now rewrite Hs, He. Qed.

Lemma step_Resolve p st r all aiResult :
  awaiting st !! r = Some all ->
  step p st (Resolve r aiResult) = settled p r (Resolved aiResult) all st.
Proof. intros H. cbn [step]. by rewrite (settle_awaiting p r _ all). Qed.

Lemma step_Reject p st r all err :
  awaiting st !! r = Some all ->
  step p st (Reject r err) = settled p r (Rejected err) all st.
Proof. intros H. cbn [step]. by rewrite (settle_awaiting p r _ all). Qed.

(** *** Runs along a trace *)

Lemma madeSince_le n0 n1 l : n0 <= n1 -> madeSince n1 l -> madeSince n0 l.
Proof. intros Hle (n & m & t & Hn & ->). exists n, m, t. split; [lia|done]. Qed.

Lemma performRealAIAnalysis_cases p seen st :
  performRealAIAnalysis p seen st = st \/
  (seen = false /\ analysisInProgress st = false /\
   performRealAIAnalysis p seen st = started p st).
Proof.
  destruct (seen || analysisInProgress st) eqn:H.
  - left. by apply performRealAIAnalysis_guarded.
  - right. apply orb_false_elim in H as [-> H].
    by rewrite performRealAIAnalysis_started.
Qed.

(** Only a click and the timer dispatch service calls. *)
Lemma step_calls_same p st ev :
  match ev with
  | Click | TimerFires => True
  | _ => calls (step p st ev) = calls st
  end.
Proof.
  destruct ev as [ | | r m | r aiResult | r err | ]; cbn [step]; try done.
  - destruct (awaiting st !! r) as [all|] eqn:H.
    + by rewrite (onProgress_awaiting r m all).
    + by rewrite onProgress_idle.
  - destruct (awaiting st !! r) as [all|] eqn:H.
    + by rewrite (settle_awaiting p r _ all).
    + by rewrite settle_idle.
  - destruct (awaiting st !! r) as [all|] eqn:H.
    + by rewrite (settle_awaiting p r _ all).
    + by rewrite settle_idle.
  - unfold unmount. by destruct (mounted st).
Qed.

(** A step that dispatches a service call is the start of a run. *)
Lemma step_starts p st ev :
  calls (step p st ev) = S (calls st) ->
  exists st0,
    (st0 = st \/ exists n, st0 = set_timers n st) /\
    analysisInProgress st = false /\
    step p st ev = started p st0.
Proof.
  intros Hc. destruct ev as [ | | r m | r aiResult | r err | ];
    cbn [step] in *.
  - destruct (mounted st); [|lia].
    destruct (performRealAIAnalysis_cases p (analyzing st) st)
      as [E|(_ & Hg & E)]; rewrite E in *; [lia|]. eauto.
  - destruct (timers st) as [|n]; [lia|].
    destruct (performRealAIAnalysis_cases p false (set_timers n st))
      as [E|(_ & Hg & E)]; rewrite E in *; [cbn in Hc; lia|].
    exists (set_timers n st). eauto.
  - destruct (awaiting st !! r) as [all|] eqn:H.
    + rewrite (onProgress_awaiting r m all) in Hc by done. cbn in Hc. lia.
    + rewrite onProgress_idle in Hc by done. lia.
  - destruct (awaiting st !! r) as [all|] eqn:H.
    + rewrite (settle_awaiting p r _ all) in Hc by done. cbn in Hc. lia.
    + rewrite settle_idle in Hc by done. cbn in Hc. lia.
  - destruct (awaiting st !! r) as [all|] eqn:H.
    + rewrite (settle_awaiting p r _ all) in Hc by done. cbn in Hc. lia.
    + rewrite settle_idle in Hc by done. cbn in Hc. lia.
  - unfold unmount in Hc. destruct (mounted st); cbn in Hc; lia.
Qed.

Lemma step_keeps p st ev r all :
  r < calls st ->
  awaiting st !! r = Some all ->
  settles r ev = false ->
  calls st <= calls (step p st ev) /\
  clock st <= clock (step p st ev) /\
  awaiting (step p st ev) !! r = Some (all ++ progressLogs r (clock st) ev).
Proof.
  intros Hlt Hr Hs.
  destruct ev as [ | | r' m | r' aiResult | r' err | ];
    cbn [step settles progressLogs] in *; rewrite ?app_nil_r.
  - destruct (mounted st); [|repeat split; (lia || done)].
    destruct (performRealAIAnalysis_cases p (analyzing st) st)
      as [E|(_ & _ & E)]; rewrite E; [repeat split; (lia || done)|].
    cbn -[startupLogs]. rewrite lookup_insert_ne by lia.
    repeat split; (lia || done).
  - destruct (timers st) as [|n]; [repeat split; (lia || done)|].
    destruct (performRealAIAnalysis_cases p false (set_timers n st))
      as [E|(_ & _ & E)]; rewrite E; [repeat split; (lia || done)|].
    cbn -[startupLogs]. rewrite lookup_insert_ne by lia.
    repeat split; (lia || done).
  - destruct (awaiting st !! r') as [all'|] eqn:H.
    + rewrite (onProgress_awaiting r' m all') by done. cbn.
      case_bool_decide as Heq.
      * subst r'. rewrite lookup_insert_eq.
        replace all' with all by congruence.
        repeat split; (lia || done).
      * rewrite lookup_insert_ne, app_nil_r by done.
        repeat split; (lia || done).
    + rewrite onProgress_idle by done.
      case_bool_decide as Heq; [congruence|].
      rewrite app_nil_r. repeat split; (lia || done).
  - apply bool_decide_eq_false in Hs.
    destruct (awaiting st !! r') as [all'|] eqn:H.
    + rewrite (settle_awaiting p r' _ all') by done. cbn.
      rewrite lookup_delete_ne by done. repeat split; (lia || done).
    + rewrite settle_idle by done. repeat split; (lia || done).
  - apply bool_decide_eq_false in Hs.
    destruct (awaiting st !! r') as [all'|] eqn:H.
    + rewrite (settle_awaiting p r' _ all') by done. cbn.
      rewrite lookup_delete_ne by done. repeat split; (lia || done).
    + rewrite settle_idle by done. repeat split; (lia || done).
  - unfold unmount. destruct (mounted st); repeat split; (lia || done).
Qed.

Lemma trace_keeps p evs : forall st r all,
  r < calls st ->
  awaiting st !! r = Some all ->
  existsb (settles r) evs = false ->
  let st' := fold_left (step p) evs st in
  exists progs,
    awaiting st' !! r = Some (all ++ progs) /\
    clock st <= clock st' /\
    map message progs = progressOf r evs /\
    Forall (fun l => type l = t_progress) progs /\
    Forall (madeSince (clock st)) progs.
Proof.
  induction evs as [|ev evs IH]; intros st r all Hlt Hr Hs; cbn.
  - exists []. rewrite app_nil_r. repeat split; (done || constructor).
  - cbn in Hs. apply orb_false_elim in Hs as [Hs1 Hs2].
    destruct (step_keeps p st ev r all Hlt Hr Hs1) as (Hc & Hk & Hr').
    destruct (IH (step p st ev) r _ ltac:(lia) Hr' Hs2)
      as (progs & Hr'' & Hk' & Hm & Ht & Hmade).
    exists (progressLogs r (clock st) ev ++ progs).
    split; [by rewrite app_assoc|]. split; [lia|].
    assert (Forall (madeSince (clock st)) progs) as Hmade'.
    { eapply Forall_impl; [exact Hmade|].
      intros l. by apply madeSince_le. }
    destruct ev as [ | | r' m | r' aiResult | r' err | ];
      cbn [progressLogs progressOf app]; try done.
    case_bool_decide; cbn; [|done].
    split; [by f_equal|]. split; constructor; try done.
    by exists (clock st), m, t_progress.
Qed.

Lemma reachable_fold p evs : forall st,
  reachable p st -> reachable p (fold_left (step p) evs st).
Proof.
  induction evs as [|ev evs IH]; intros st H; cbn; [done|].
  apply IH. by constructor.
Qed.

(** A settlement appends no progress entry, and every entry it appends
    is made then. *)
Lemma settledLogs_types s n :
  Forall (fun l => type l <> t_progress) (settledLogs s n).
Proof.
  unfold settledLogs, caught, triedLogs, tried.
  destruct s as [aiResult|err]; cbn.
  - destruct (get aiResult "signal"); cbn; try by repeat constructor.
    destruct (get aiResult "eodMovement"); cbn; by repeat constructor.
  - by repeat constructor.
Qed.

Lemma settledLogs_madeSince s n :
  Forall (madeSince n) (settledLogs s n).
Proof.
  unfold settledLogs, caught, triedLogs, tried.
  assert (forall k m t, madeSince n (entry (k + n) m t)) as H.
  { intros k m t. exists (k + n), m, t. split; [lia|done]. }
  destruct s as [aiResult|err]; cbn.
  - destruct (get aiResult "signal"); cbn;
      try (repeat constructor; first [apply (H 0) | apply (H 1)]).
    destruct (get aiResult "eodMovement"); cbn;
      repeat constructor;
      first [apply (H 0) | apply (H 1) | apply (H 2) | apply (H 3)].
  - repeat constructor. apply (H 0).
Qed.

Lemma fallbackResult_savedLogs saved :
  fallbackResult saved !! "savedLogs" = Some (VLogs saved).
Proof.
  unfold fallbackResult.
  rewrite !lookup_insert_ne by done. apply lookup_insert_eq.
Qed.

Lemma delivered_savedLogs s saved :
  delivered s saved !! "savedLogs" = Some (VLogs saved).
Proof.
  unfold delivered.
  destruct s as [aiResult|err]; [destruct (caught _)|];
    first [apply fallbackResult_savedLogs | apply lookup_insert_eq].
Qed.

(** The step that settles a pending call, whichever way. *)
Lemma step_settles p st ev r all :
  awaiting st !! r = Some all ->
  settles r ev = true ->
  exists s, step p st ev = settled p r s all st.
Proof.
  intros Hr Hs. destruct ev as [ | | r' m | r' aiResult | r' err | ];
    cbn [settles] in Hs; try done;
    apply bool_decide_eq_true in Hs; subst r'.
  - exists (Resolved aiResult). by apply step_Resolve.
  - exists (Rejected err). by apply step_Reject.
Qed.

(** C1.  A pending run holds the four startup entries followed by
    progress entries only.  When the service resolves with a result whose
    signal is a string and whose eodMovement is a number, the run hands
    the container that result with savedLogs set to those entries followed
    by a success, a result, a reasoning and a forecast entry.  The result
    entry reads "🎯 Signal: ", the signal in upper case, " (", the
    buyPercentage as a template literal renders it (a number as the
    runtime prints it) and "%)"; the reasoning entry reads "💭 " and the
    reasoning; the forecast entry reads the arrow of the movement's sign,
    " EOD Movement: ", a "+" for a positive movement, the movement to one
    digit and "%".  When eodMovement is undefined or null the sequence
    ends at the reasoning entry. *)
Theorem savedLogs_on_success p st r all aiResult s :
  reachable p st ->
  onAnalysisComplete p = true ->
  awaiting st !! r = Some all ->
  get aiResult "signal" = VStr s ->
  let st' := step p st (Resolve r aiResult) in
  (exists k,
     map type all
     = [t_system; t_info; t_info; t_system] ++ replicate k t_progress) /\
  (forall q, get aiResult "eodMovement" = VNum q ->
     exists l5 l6 l7 l8,
       effects st'
       = effects st
         ++ [OnAnalysisComplete (ticker (stock p))
               (<["savedLogs" := VLogs (all ++ [l5; l6; l7; l8])]> aiResult)] /\
       map type [l5; l6; l7; l8]
       = [t_success; t_result; t_reasoning; t_forecast] /\
       message l5 = "✅ AI analysis complete" /\
       message l6
       = ("🎯 Signal: " ++ toUpperCase s ++ " ("
          ++ toString (get aiResult "buyPercentage") ++ "%)")%string /\
       (forall n, get aiResult "buyPercentage" = VNum n ->
          message l6
          = ("🎯 Signal: " ++ toUpperCase s ++ " ("
             ++ numToString n ++ "%)")%string) /\
       message l7
       = ("💭 " ++ toString (get aiResult "reasoning"))%string /\
       (forall t, get aiResult "reasoning" = VStr t ->
          message l7 = ("💭 " ++ t)%string) /\
       message l8
       = (movementDirection q ++ " EOD Movement: "
          ++ (if gt0 q then "+" else "") ++ toFixed q 1 ++ "%")%string /\
       (gt0 q = true <-> (0 < q)%Q) /\
       ((0 < q)%Q -> movementDirection q = "📈") /\
       ((q < 0)%Q -> movementDirection q = "📉") /\
       ((q == 0)%Q -> movementDirection q = "➡️")) /\
  (get aiResult "eodMovement" = VUndefined \/
   get aiResult "eodMovement" = VNull ->
     exists l5 l6 l7,
       effects st'
       = effects st
         ++ [OnAnalysisComplete (ticker (stock p))
               (<["savedLogs" := VLogs (all ++ [l5; l6; l7])]> aiResult)] /\
       map type [l5; l6; l7] = [t_success; t_result; t_reasoning] /\
       message l5 = "✅ AI analysis complete" /\
       message l6
       = ("🎯 Signal: " ++ toUpperCase s ++ " ("
          ++ toString (get aiResult "buyPercentage") ++ "%)")%string /\
       (forall n, get aiResult "buyPercentage" = VNum n ->
          message l6
          = ("🎯 Signal: " ++ toUpperCase s ++ " ("
             ++ numToString n ++ "%)")%string) /\
       message l7
       = ("💭 " ++ toString (get aiResult "reasoning"))%string /\
       (forall t, get aiResult "reasoning" = VStr t ->
          message l7 = ("💭 " ++ t)%string)).
Proof.
  intros Hreach Hcb Hr Hsig st'. subst st'.
  rewrite (step_Resolve p st r all) by done.
  split; [|split].
  - destruct (shape_reachable p st Hreach r all Hr) as (n & progs & -> & Hp).
    exists (length progs).
    by rewrite map_app, startupLogs_types, (types_of_progress progs).
  - intros q Heod.
    pose proof (tried_forecast aiResult s q (clock st) Hsig Heod) as Ht.
    pose proof (tried_forecast aiResult s q 0 Hsig Heod) as Ht0.
    eexists _, _, _, _.
    split.
    { cbn [settled effects]. unfold completeEffects, delivered, settledLogs,
        caught, triedLogs. rewrite Hcb, Ht, Ht0. cbn [fst snd].
      rewrite app_nil_r. reflexivity. }
    split; [reflexivity|]. split; [reflexivity|].
    split; [reflexivity|]. split.
    { intros n Hn. cbn [message entry]. unfold signalMessage.
      by rewrite Hn. }
    split; [reflexivity|]. split.
    { intros t Ht'. cbn [message entry]. unfold reasoningMessage.
      by rewrite Ht'. }
    split; [reflexivity|]. split; [apply gt0_spec|].
    apply movementDirection_sign.
  - intros Heod.
    pose proof (tried_no_forecast aiResult s (clock st) Hsig Heod) as Ht.
    pose proof (tried_no_forecast aiResult s 0 Hsig Heod) as Ht0.
    eexists _, _, _.
    split.
    { cbn [settled effects]. unfold completeEffects, delivered, settledLogs,
        caught, triedLogs. rewrite Hcb, Ht, Ht0. cbn [fst snd].
      rewrite app_nil_r. reflexivity. }
    split; [reflexivity|]. split; [reflexivity|].
    split; [reflexivity|]. split.
    { intros n Hn. cbn [message entry]. unfold signalMessage.
      by rewrite Hn. }
    split; [reflexivity|].
    intros t Ht'. cbn [message entry]. unfold reasoningMessage.
    by rewrite Ht'.
Qed.

(** C2.  Take a step that starts a run (it dispatches the service call)
    and any events after it that do not settle that call.  The run then
    holds the four startup entries followed by exactly one progress entry
    per progress callback of its call, with the callbacks' messages in
    the order of the callbacks; a mounted component shows the same
    sequence; and whichever way the call then settles, the savedLogs
    handed over are that sequence followed by entries none of which is a
    progress entry. *)
Theorem progress_entries p st ev0 evs :
  reachable p st ->
  onAnalysisComplete p = true ->
  calls (step p st ev0) = S (calls st) ->
  existsb (settles (calls st)) evs = false ->
  let r := calls st in
  let st2 := fold_left (step p) evs (step p st ev0) in
  exists init progs,
    awaiting st2 !! r = Some (init ++ progs) /\
    map type init = [t_system; t_info; t_info; t_system] /\
    map message progs = progressOf r evs /\
    map type progs = replicate (length (progressOf r evs)) t_progress /\
    (mounted st2 = true -> logs st2 = init ++ progs) /\
    forall ev, settles r ev = true ->
      exists res post,
        effects (step p st2 ev)
        = effects st2 ++ [OnAnalysisComplete (ticker (stock p)) res] /\
        res !! "savedLogs" = Some (VLogs (init ++ progs ++ post)) /\
        Forall (fun l => type l <> t_progress) post.
Proof.
  intros Hreach Hcb Hc Hs r st2.
  destruct (step_starts p st ev0 Hc) as (st0 & Hst0 & Hg & E).
  assert (calls st0 = calls st /\ clock st0 = clock st) as [Hc0 Hk0].
  { destruct Hst0 as [->|[n ->]]; done. }
  assert (awaiting (step p st ev0) !! r = Some (startupLogs p (clock st)))
    as Hr.
  { rewrite E. cbn -[startupLogs]. rewrite Hc0, Hk0. apply lookup_insert_eq. }
  destruct (trace_keeps p evs (step p st ev0) r _ ltac:(subst r; lia) Hr Hs)
    as (progs & Hr2 & _ & Hm & Ht & _).
  fold st2 in Hr2.
  exists (startupLogs p (clock st)), progs.
  split; [done|]. split; [done|]. split; [done|].
  split; [by rewrite (types_of_progress progs Ht), <- Hm, length_map|].
  assert (reachable p st2) as Hreach2.
  { apply reachable_fold. by constructor. }
  split.
  - intros Hm2.
    destruct (guard_reachable p st2 Hreach2) as [_ Hinv].
    destruct (Hinv Hm2) as [_ Hone].
    destruct (analysisInProgress st2).
    + destruct Hone as (r0 & all0 & Hone & Hlogs).
      rewrite Hone in Hr2.
      apply lookup_singleton_Some in Hr2 as [_ <-]. done.
    + by rewrite Hone, lookup_empty in Hr2.
  - intros ev Hev.
    destruct (step_settles p st2 ev r _ Hr2 Hev) as [s ->].
    eexists _, (settledLogs s (clock st2)).
    cbn [settled effects]. unfold completeEffects. rewrite Hcb.
    split; [reflexivity|].
    split; [by rewrite delivered_savedLogs, app_assoc|].
    apply settledLogs_types.
Qed.

Lemma string_app_nil_r (s : string) : (s ++ "")%string = s.
Proof.
  induction s as [|a s IH]; [done|].
  change (String a (s ++ "")%string = String a s). by f_equal.
Qed.

(** C3, as the code has it.  When the service call of a pending run
    rejects, the run appends one error entry whose message ends with the
    error's message, and hands the container, through the completion
    callback it uses on success, a fallback result with buyPercentage 30,
    signal hold, reasoning "AI service unavailable", eodMovement 0,
    confidence 0.2 and, as savedLogs, the accumulated entries with the
    error entry last.  The guard is cleared, and a mounted component
    stores that result and shows the error entry. *)
Theorem fallback_on_rejection p st r all err :
  onAnalysisComplete p = true ->
  awaiting st !! r = Some all ->
  let st' := step p st (Reject r err) in
  exists errorLog,
    let fb := fallbackResult (all ++ [errorLog]) in
    type errorLog = t_error /\
    (exists pre post,
       message errorLog = (pre ++ err_message err ++ post)%string) /\
    effects st'
    = effects st ++ [OnAnalysisComplete (ticker (stock p)) fb] /\
    fb !! "buyPercentage" = Some (VNum 30) /\
    fb !! "signal" = Some (VStr "hold") /\
    fb !! "reasoning" = Some (VStr "AI service unavailable") /\
    fb !! "eodMovement" = Some (VNum 0) /\
    fb !! "confidence" = Some (VNum 0.2) /\
    fb !! "savedLogs" = Some (VLogs (all ++ [errorLog])) /\
    last (all ++ [errorLog]) = Some errorLog /\
    analysisInProgress st' = false /\
    (mounted st = true ->
     result st' = Some fb /\ logs st' = logs st ++ [errorLog] /\
     analyzing st' = false).
Proof.
  intros Hcb Hr st'. subst st'.
  rewrite (step_Reject p st r all) by done.
  exists (entry (clock st) (failureMessage err) t_error).
  cbn zeta. split; [done|]. split.
  { exists "❌ Analysis failed: ", "". cbn [message entry].
    unfold failureMessage. by rewrite string_app_nil_r. }
  split.
  { cbn [settled effects]. unfold completeEffects. by rewrite Hcb. }
  do 5 (split; [by unfold fallbackResult; simplify_map_eq|]).
  split; [apply fallbackResult_savedLogs|].
  split; [apply last_snoc|]. split; [done|].
  intros Hm. cbn. by rewrite Hm.
Qed.

(** C9.  A step that starts a run gives the run the four entries it has
    just made and nothing else.  On a mounted component the log sequence
    shown is exactly those four, and the step leaves the same state
    whatever the log sequence was before.  After any events that do not
    settle the call, whichever way it then settles, every entry of the
    savedLogs handed over was made since the start. *)
Theorem logs_reset_on_start p st ev0 :
  onAnalysisComplete p = true ->
  calls (step p st ev0) = S (calls st) ->
  let st1 := step p st ev0 in
  awaiting st1 !! calls st = Some (startupLogs p (clock st)) /\
  (mounted st = true ->
   logs st1 = startupLogs p (clock st) /\
   forall old, step p (set_logs old st) ev0 = st1) /\
  forall evs ev,
    existsb (settles (calls st)) evs = false ->
    settles (calls st) ev = true ->
    let st2 := fold_left (step p) evs st1 in
    exists res saved,
      effects (step p st2 ev)
      = effects st2 ++ [OnAnalysisComplete (ticker (stock p)) res] /\
      res !! "savedLogs" = Some (VLogs saved) /\
      Forall (madeSince (clock st)) saved.
Proof.
  intros Hcb Hc st1.
  destruct (step_starts p st ev0 Hc) as (st0 & Hst0 & Hg & E).
  assert (calls st0 = calls st /\ clock st0 = clock st /\
          mounted st0 = mounted st) as (Hc0 & Hk0 & Hm0).
  { destruct Hst0 as [->|[n ->]]; done. }
  assert (awaiting st1 !! calls st = Some (startupLogs p (clock st))) as Hr.
  { subst st1. rewrite E. cbn -[startupLogs]. rewrite Hc0, Hk0.
    apply lookup_insert_eq. }
  split; [done|]. split.
  - intros Hm. split.
    + subst st1. rewrite E. cbn -[startupLogs]. by rewrite Hm0, Hm, Hk0.
    + intros old. subst st1.
      destruct ev0 as [ | | r m | r aiResult | r err | ];
        cbn [step] in *; cbn [mounted set_logs timers analyzing].
      * rewrite Hm in *.
        destruct (performRealAIAnalysis_cases p (analyzing st) st)
          as [E'|(Ha & _ & E')]; rewrite E' in *; [lia|].
        rewrite Ha, performRealAIAnalysis_started by done.
        unfold started. cbn -[startupLogs]. by rewrite Hm.
      * destruct (timers st) as [|n]; [lia|].
        destruct (performRealAIAnalysis_cases p false (set_timers n st))
          as [E'|(_ & Hg' & E')]; rewrite E' in *; [cbn in Hc; lia|].
        rewrite performRealAIAnalysis_started by done.
        unfold started. cbn -[startupLogs]. by rewrite Hm.
      * pose proof (step_calls_same p st (Progress r m)) as Hsame.
        cbn [step] in Hsame. lia.
      * pose proof (step_calls_same p st (Resolve r aiResult)) as Hsame.
        cbn [step] in Hsame. lia.
      * pose proof (step_calls_same p st (Reject r err)) as Hsame.
        cbn [step] in Hsame. lia.
      * pose proof (step_calls_same p st Unmount) as Hsame.
        cbn [step] in Hsame. lia.
  - intros evs ev Hs Hev st2.
    assert (calls st < calls st1) as Hlt by (subst st1; lia).
    assert (clock st <= clock st1) as Hk1.
    { subst st1. rewrite E. cbn. lia. }
    destruct (trace_keeps p evs st1 (calls st) _ Hlt Hr Hs)
      as (progs & Hr2 & Hk2 & _ & _ & Hmade).
    fold st2 in Hr2, Hk2.
    destruct (step_settles p st2 ev (calls st) _ Hr2 Hev) as [s ->].
    eexists _, _.
    cbn [settled effects]. unfold completeEffects. rewrite Hcb.
    split; [reflexivity|]. split; [apply delivered_savedLogs|].
    rewrite !Forall_app. split; [split|].
    + repeat constructor.
      * by exists (clock st), (startMessage (stock p)), t_system.
      * exists (S (clock st)), (priceMessage (stock p)), t_info.
        split; [lia|done].
      * exists (S (S (clock st))), (newsMessage (stock p)), t_info.
        split; [lia|done].
      * exists (S (S (S (clock st)))), "🧠 Sending to Gemini AI...", t_system.
        split; [lia|done].
    + eapply Forall_impl; [exact Hmade|].
      intros l. apply madeSince_le. done.
    + eapply Forall_impl; [apply settledLogs_madeSince|].
      intros l. apply madeSince_le. lia.
Qed.

(** C10.  The fallback result handed over when the service call of a
    pending run rejects has the six properties buyPercentage, signal,
    reasoning, eodMovement, confidence and savedLogs and no other:
    analysisTimestamp, hasTechnicalData, technicalBars and hasFullArticle
    are absent. *)
Theorem fallback_fields p st r all err :
  onAnalysisComplete p = true ->
  awaiting st !! r = Some all ->
  exists fb,
    effects (step p st (Reject r err))
    = effects st ++ [OnAnalysisComplete (ticker (stock p)) fb] /\
    dom fb = ({["buyPercentage"; "signal"; "reasoning"; "eodMovement";
                "confidence"; "savedLogs"]} : gset string) /\
    fb !! "analysisTimestamp" = None /\
    fb !! "hasTechnicalData" = None /\
    fb !! "technicalBars" = None /\
    fb !! "hasFullArticle" = None.
Proof.
  intros Hcb Hr.
  rewrite (step_Reject p st r all) by done.
  eexists. split.
  { cbn [settled effects]. unfold completeEffects. rewrite Hcb.
    reflexivity. }
  unfold delivered, caught, fallbackResult.
  split.
  { rewrite !dom_insert_L, dom_empty_L. set_solver. }
  by simplify_map_eq.
Qed.

(** *** The panel's flags *)

(** C4, as the code has it.  In every reachable state running and
    complete are not both set; a result is present whenever complete is
    set or the snapshot supplied one; while the guard is set a request is
    in flight, and on a mounted component the guard is set exactly when
    one request is in flight and clear exactly when none is; and the
    guard is clear after every exit: a settlement of a pending call,
    either way, and the unmount. *)
Theorem panel_invariant p st :
  reachable p st ->
  analyzing st && complete st = false /\
  (complete st = true \/ is_Some (savedResult p) -> is_Some (result st)) /\
  (analysisInProgress st = true -> awaiting st <> ∅) /\
  (mounted st = true ->
   if analysisInProgress st
   then exists r all, awaiting st = {[r := all]}
   else awaiting st = ∅) /\
  (forall ev, exits st ev -> analysisInProgress (step p st ev) = false).
Proof.
  intros Hreach.
  split; [by apply (flags_reachable p)|].
  split; [by apply (result_reachable p)|].
  destruct (guard_reachable p st Hreach) as [Hg Hm].
  split; [done|]. split.
  - intros Hon. destruct (Hm Hon) as [_ H].
    destruct (analysisInProgress st); [|done].
    destruct H as (r & all & H & _). eauto.
  - intros ev Hev.
    destruct ev as [ | | r m | r aiResult | r err | ]; cbn [exits] in Hev;
      try done.
    + destruct Hev as [all Hr]. by rewrite (step_Resolve p st r all).
    + destruct Hev as [all Hr]. by rewrite (step_Reject p st r all).
    + cbn [step]. unfold unmount. by rewrite Hev.
Qed.

(** What the guard does ensure.  On a mounted component at most one run
    is in flight, and while the guard is set the log sequence shown is
    the one of that run.  A start invoked while the guard is set returns
    at once: a click leaves the state as it is, and so does the timer but
    for being spent. *)
Theorem single_run_while_mounted p st :
  reachable p st ->
  (mounted st = true -> size (awaiting st) <= 1) /\
  (mounted st = true -> analysisInProgress st = true ->
   exists r all, awaiting st = {[r := all]} /\ logs st = all) /\
  (analysisInProgress st = true ->
   (forall seen, performRealAIAnalysis p seen st = st) /\
   step p st Click = st /\
   (step p st TimerFires = st \/
    exists n, timers st = S n /\ step p st TimerFires = set_timers n st)).
Proof.
  intros Hreach.
  destruct (guard_reachable p st Hreach) as [_ Hm].
  split; [|split].
  - intros Hon. destruct (Hm Hon) as [_ H].
    destruct (analysisInProgress st).
    + destruct H as (r & all & -> & _). by rewrite map_size_singleton.
    + rewrite H, map_size_empty. lia.
  - intros Hon Hg. destruct (Hm Hon) as [_ H]. by rewrite Hg in H.
  - intros Hg.
    assert (forall seen st0, analysisInProgress st0 = true ->
              performRealAIAnalysis p seen st0 = st0) as Hno.
    { intros seen st0 H. apply performRealAIAnalysis_guarded.
      rewrite H. apply orb_true_r. }
    split; [by auto|]. split.
    + cbn [step]. destruct (mounted st); by auto.
    + cbn [step]. destruct (timers st) as [|n]; [by left|].
      right. exists n. split; [done|]. by apply Hno.
Qed.

(** *** Auto-start *)

Lemma mount_existing p :
  hasExistingAnalysis p = true ->
  timers (mount p) = 0 /\ effects (mount p) = [].
Proof.
  unfold mount, loadSavedEffect, autoStartEffect, init, hasExistingAnalysis.
  destruct (savedLogs p) as [[|x l]|], (savedResult p), (autoStart p);
    cbn; done.
Qed.

Lemma mount_autoStart p :
  autoStart p = true ->
  hasExistingAnalysis p = false ->
  timers (mount p) = 1 /\ effects (mount p) = [SetTimeout 500].
Proof.
  unfold mount, loadSavedEffect, autoStartEffect, init, hasExistingAnalysis.
  destruct (savedLogs p) as [[|x l]|], (savedResult p), (autoStart p);
    cbn; done.
Qed.

(** Without a timer and without a pending call, only a click changes
    anything but the mount flag and the guard. *)
Lemma step_idle p st ev :
  timers st = 0 -> awaiting st = ∅ -> isClick ev = false ->
  let st' := step p st ev in
  timers st' = 0 /\ awaiting st' = ∅ /\ effects st' = effects st /\
  calls st' = calls st /\ logs st' = logs st /\ result st' = result st /\
  complete st' = complete st /\ analyzing st' = analyzing st.
Proof.
  intros Ht Ha Hev.
  destruct ev as [ | | r m | r aiResult | r err | ]; cbn [step]; try done.
  - by rewrite Ht.
  - rewrite onProgress_idle; [done|]. by rewrite Ha, lookup_empty.
  - rewrite settle_idle; [done|]. by rewrite Ha, lookup_empty.
  - rewrite settle_idle; [done|]. by rewrite Ha, lookup_empty.
  - unfold unmount. by destruct (mounted st).
Qed.

(** C6.  A panel mounted with a saved result or with saved logs that are
    not empty schedules no timer and, whatever autoStart says, along any
    events without a click it calls the service never, does nothing to
    the outside, and keeps showing the saved logs and the saved
    result. *)
Theorem snapshot_shown_without_call p evs :
  hasExistingAnalysis p = true ->
  existsb isClick evs = false ->
  let st := run p evs in
  dispatched st = [] /\
  effects st = [] /\
  calls st = 0 /\
  logs st = match savedLogs p with Some l => l | None => [] end /\
  result st = savedResult p /\
  complete st = match savedResult p with Some _ => true | None => false end /\
  analyzing st = false.
Proof.
  intros Hex Hev st.
  assert (timers st = 0 /\ awaiting st = ∅ /\ effects st = [] /\
          calls st = 0 /\ logs st = logs (mount p) /\
          result st = result (mount p) /\
          complete st = complete (mount p) /\
          analyzing st = analyzing (mount p)) as H.
  { subst st. unfold run.
    induction evs as [|ev evs IH] using rev_ind.
    - destruct (mount_existing p Hex) as [Ht He].
      destruct (mount_cells p) as (_ & _ & _ & Ha & Hc & _). cbn. auto 10.
    - rewrite existsb_app in Hev. cbn in Hev.
      apply orb_false_elim in Hev as [Hev1 Hev2].
      rewrite orb_false_r in Hev2.
      destruct (IH Hev1) as (Ht & Ha & He & Hc & Hl & Hr & Hco & Han).
      rewrite fold_left_app. cbn [fold_left].
      destruct (step_idle p _ ev Ht Ha Hev2)
        as (Ht' & Ha' & He' & Hc' & Hl' & Hr' & Hco' & Han').
      rewrite Ht', Ha', He', Hc', Hl', Hr', Hco', Han'. auto 10. }
  destruct H as (_ & _ & He & Hc & Hl & Hr & Hco & Han).
  destruct (mount_cells p) as (Ha0 & _ & _ & _ & _ & Hco0 & Hr0 & Hl0).
  unfold dispatched. rewrite He, Hc, Hl, Hr, Hco, Han. auto 10.
Qed.

Lemma dispatched_app st extra :
  dispatched (set_effects (effects st ++ extra) st)
  = dispatched st
    ++ omap (fun e => match e with
                      | AnalyzeStock r s => Some (r, s)
                      | _ => None
                      end) extra.
Proof. unfold dispatched. cbn. apply omap_app. Qed.

Lemma step_autoFired p st ev :
  autoFired p st -> isClick ev = false -> autoFired p (step p st ev).
Proof.
  unfold autoFired, dispatched. intros [Ht Hd] Hev.
  destruct ev as [ | | r m | r aiResult | r err | ]; cbn [step]; try done.
  - by rewrite Ht.
  - destruct (awaiting st !! r) as [all|] eqn:H.
    + by rewrite (onProgress_awaiting r m all).
    + by rewrite onProgress_idle.
  - destruct (awaiting st !! r) as [all|] eqn:H.
    + rewrite (settle_awaiting p r _ all) by done. cbn.
      rewrite omap_app, Hd. unfold completeEffects.
      by destruct (onAnalysisComplete p).
    + by rewrite settle_idle.
  - destruct (awaiting st !! r) as [all|] eqn:H.
    + rewrite (settle_awaiting p r _ all) by done. cbn.
      rewrite omap_app, Hd. unfold completeEffects.
      by destruct (onAnalysisComplete p).
    + by rewrite settle_idle.
  - unfold unmount. by destruct (mounted st).
Qed.

Lemma step_autoPending p st ev :
  autoPending st -> isClick ev = false ->
  if isTimerFires ev then autoFired p (step p st ev)
  else autoPending (step p st ev).
Proof.
  unfold autoPending, autoFired, dispatched.
  intros (Ht & Hg & Ha & Hc & Hd) Hev.
  destruct ev as [ | | r m | r aiResult | r err | ];
    cbn [step isTimerFires]; try done.
  - rewrite Ht, performRealAIAnalysis_started by done.
    cbn -[startupLogs]. rewrite omap_app, Hd, Hc. unfold startEffects.
    by destruct (onAnalysisStart p).
  - rewrite onProgress_idle; [done|]. by rewrite Ha, lookup_empty.
  - rewrite settle_idle; [done|]. by rewrite Ha, lookup_empty.
  - rewrite settle_idle; [done|]. by rewrite Ha, lookup_empty.
  - unfold unmount. by destruct (mounted st).
Qed.

Lemma trace_autoFired p evs : forall st,
  autoFired p st -> existsb isClick evs = false ->
  autoFired p (fold_left (step p) evs st).
Proof.
  induction evs as [|ev evs IH]; intros st H Hev; cbn; [done|].
  cbn in Hev. apply orb_false_elim in Hev as [Hev1 Hev2].
  apply IH; [|done]. by apply step_autoFired.
Qed.

Lemma trace_autoPending p evs : forall st,
  autoPending st -> existsb isClick evs = false ->
  if existsb isTimerFires evs
  then autoFired p (fold_left (step p) evs st)
  else autoPending (fold_left (step p) evs st).
Proof.
  induction evs as [|ev evs IH]; intros st H Hev; cbn; [done|].
  cbn in Hev. apply orb_false_elim in Hev as [Hev1 Hev2].
  pose proof (step_autoPending p st ev H Hev1) as Hstep.
  destruct (isTimerFires ev); cbn.
  - by apply trace_autoFired.
  - by apply IH.
Qed.

(** C7.  A panel mounted with autoStart and without a saved result or
    saved logs sets one timer of 500 ms and calls nothing yet.  Along any
    events without a click the service has been called exactly once, for
    the panel's stock, as soon as the timer has fired, and not at all
    before. *)
Theorem auto_start_once p evs :
  autoStart p = true ->
  hasExistingAnalysis p = false ->
  existsb isClick evs = false ->
  effects (mount p) = [SetTimeout 500] /\
  timers (mount p) = 1 /\
  dispatched (run p evs)
  = if existsb isTimerFires evs then [(0, stock p)] else [].
Proof.
  intros Hauto Hex Hev.
  destruct (mount_autoStart p Hauto Hex) as [Ht He].
  split; [done|]. split; [done|].
  assert (autoPending (mount p)) as Hpend.
  { destruct (mount_cells p) as (_ & Hg & _ & Ha & Hc & _).
    unfold autoPending, dispatched. by rewrite He. }
  pose proof (trace_autoPending p evs (mount p) Hpend Hev) as H.
  unfold run. destruct (existsb isTimerFires evs).
  - apply H.
  - apply H.
Qed.

(** *** Callbacks *)

Lemma count_app f l1 l2 : count f (l1 ++ l2) = count f l1 + count f l2.
Proof. induction l1 as [|e l1 IH]; cbn; [done|]. rewrite IH. lia. Qed.

Lemma counts_transition p st st' :
  onAnalysisStart p = true ->
  onAnalysisComplete p = true ->
  ids_inv st /\ counts_inv st ->
  transition p st st' ->
  ids_inv st' /\ counts_inv st'.
Proof.
  intros Hs Hc [Hids (H1 & H2 & H3)] Ht.
  split; [by eapply ids_transition|].
  unfold counts_inv.
  destruct Ht as [n Hn | Hoff | r m all Hr | r s all Hr | Hon];
    cbn -[startupLogs]; try done.
  - unfold startEffects. rewrite Hs, !count_app. cbn.
    rewrite map_size_insert_None; [lia|].
    destruct (awaiting st !! calls st) as [all|] eqn:H; [|done].
    apply Hids in H. lia.
  - rewrite map_size_insert_Some by eauto. done.
  - unfold completeEffects. rewrite Hc, !count_app. cbn.
    rewrite map_size_delete_Some by eauto.
    assert (size (awaiting st) <> 0).
    { apply map_size_non_empty_iff. intros Habs.
      by rewrite Habs, lookup_empty in Hr. }
    lia.
Qed.

Lemma counts_reachable p st :
  onAnalysisStart p = true ->
  onAnalysisComplete p = true ->
  reachable p st -> counts_inv st.
Proof.
  intros Hs Hc Hreach.
  enough (ids_inv st /\ counts_inv st) as [_ H] by done.
  revert st Hreach. apply reachable_ind_transition.
  - split; [apply (ids_reachable p); constructor|].
    unfold counts_inv.
    destruct (mount_cells p) as (_ & _ & _ & -> & -> & _).
    unfold mount, loadSavedEffect, autoStartEffect, init,
      hasExistingAnalysis.
    destruct (savedLogs p) as [[|x l]|], (savedResult p), (autoStart p);
      cbn; done.
  - intros st0 st' H Ht. by eapply counts_transition.
Qed.

(** C8.  With both callbacks supplied: a step that starts a run notifies
    the start once, with the ticker, and then dispatches the service
    call, and does nothing else to the outside; the settlement of a
    pending call, by a result or by an error, notifies the completion
    once, with the ticker and a result, and the async function completes
    normally (no exception leaves it); and in every reachable state there
    have been as many start notifications as service calls and one
    completion notification for every call that is no longer pending. *)
Theorem callbacks_once p st :
  reachable p st ->
  onAnalysisStart p = true ->
  onAnalysisComplete p = true ->
  (forall ev, calls (step p st ev) = S (calls st) ->
     effects (step p st ev)
     = effects st ++ [OnAnalysisStart (ticker (stock p));
                      AnalyzeStock (calls st) (stock p)]) /\
  (forall r all s, awaiting st !! r = Some all ->
     fst (settle p r s st) = Normal tt /\
     exists res,
       effects (snd (settle p r s st))
       = effects st ++ [OnAnalysisComplete (ticker (stock p)) res]) /\
  count isStart (effects st) = calls st /\
  count isAnalyze (effects st) = calls st /\
  count isComplete (effects st) + size (awaiting st) = calls st.
Proof.
  intros Hreach Hs Hc. split; [|split].
  - intros ev Hev.
    destruct (step_starts p st ev Hev) as (st0 & Hst0 & _ & ->).
    unfold started, startEffects. cbn [effects]. rewrite Hs.
    destruct Hst0 as [->|[n ->]]; done.
  - intros r all s Hr. rewrite (settle_awaiting p r s all) by done.
    split; [done|]. eexists. cbn [snd settled effects].
    unfold completeEffects. by rewrite Hc.
  - by apply (counts_reachable p).
Qed.

End Claims.

(** * Rendering and the lifecycle *)

Section Rendering.
Context {rt : JsRuntime}.
Variable stringToNumber : string -> Num.

(** X1. Every log type has a colour class of its own, and none falls to
    the default of the [switch]. *)
Theorem getLogColor_distinct t1 t2 :
  (getLogColor (typeName t1) = getLogColor (typeName t2) <-> t1 = t2) /\
  getLogColor (typeName t1) <> "text-gray-300".
Proof.
  split; [split|].
  - destruct t1, t2; cbn; intros H; first [reflexivity | discriminate H].
  - intros ->. reflexivity.
  - destruct t1; cbn; discriminate.
Qed.

(** X2. The icon and the colour of the signal are chosen by the same
    band, whatever the value of buyPercentage. *)
Theorem signal_icon_matches_color v :
  (getSignalColor stringToNumber v = "text-gray-400"
   <-> getSignalIcon stringToNumber v = "❓") /\
  (getSignalColor stringToNumber v = "text-green-400"
   <-> getSignalIcon stringToNumber v = "🚀") /\
  (getSignalColor stringToNumber v = "text-blue-400"
   <-> getSignalIcon stringToNumber v = "📈") /\
  (getSignalColor stringToNumber v = "text-yellow-400"
   <-> getSignalIcon stringToNumber v = "⚡") /\
  (getSignalColor stringToNumber v = "text-orange-400"
   <-> getSignalIcon stringToNumber v = "🤔").
Proof.
  unfold getSignalColor, getSignalIcon.
  destruct (falsy v), (geN (toNumber stringToNumber v) 80),
    (geN (toNumber stringToNumber v) 60),
    (geN (toNumber stringToNumber v) 40);
    repeat split; intros H; first [reflexivity | discriminate H].
Qed.

Lemma gtN0_ltN0 n : gtN0 n = true -> ltN0 n = false.
Proof.
  destruct n as [q| | |]; cbn; try done.
  unfold gt0, lt0. rewrite Z.ltb_lt, Z.ltb_ge. lia.
Qed.

(** X3. The icon and the colour of the end-of-day movement agree on
    every value; on a number they follow its sign, and a movement that
    is undefined or null is shown as neutral. *)
Theorem eod_icon_matches_color v :
  (getEodMovementColor stringToNumber v = "text-green-400"
   <-> getEodMovementIcon stringToNumber v = "📈") /\
  (getEodMovementColor stringToNumber v = "text-red-400"
   <-> getEodMovementIcon stringToNumber v = "📉") /\
  (getEodMovementColor stringToNumber v = "text-gray-400"
   <-> getEodMovementIcon stringToNumber v = "➡️") /\
  (forall q, v = VNum q ->
     ((0 < q)%Q <-> getEodMovementIcon stringToNumber v = "📈") /\
     ((q < 0)%Q <-> getEodMovementIcon stringToNumber v = "📉") /\
     ((q == 0)%Q <-> getEodMovementIcon stringToNumber v = "➡️")) /\
  (v = VUndefined \/ v = VNull ->
     getEodMovementIcon stringToNumber v = "➡️").
Proof.
  split; [|split; [|split; [|split]]].
  1-3: unfold getEodMovementColor, getEodMovementIcon;
    destruct v as [ | |b|q|s|l];
    try destruct (gtN0 _); try destruct (ltN0 _);
    split; intros H; first [reflexivity | discriminate H].
  - intros q ->. cbn.
    rewrite <- gt0_spec, <- lt0_spec.
    unfold gt0, lt0, Qeq. cbn.
    destruct (0 <? Qnum q)%Z eqn:Hg; [|destruct (Qnum q <? 0)%Z eqn:Hl];
      rewrite ?Z.ltb_lt, ?Z.ltb_ge in *;
      repeat split; intros H;
      try reflexivity; try discriminate H; try lia; exfalso; lia.
  - intros [->| ->]; reflexivity.
Qed.

(** X4. The forecast line of the log and the summary show the same
    movement: the message of the line is the summary's icon, then " EOD
    Movement: ", then the summary's text. *)
Theorem forecast_line_matches_summary q :
  exists text,
    formatEodMovement (VNum q) = Normal text /\
    movementMessage q (toFixed q 1)
    = (getEodMovementIcon stringToNumber (VNum q)
       ++ " EOD Movement: " ++ text)%string.
Proof.
  eexists. split; [reflexivity|].
  unfold movementMessage, movementDirection, getEodMovementIcon.
  cbn [toNumber gtN0 ltN0]. reflexivity.
Qed.

End Rendering.

Section ViewAndLifecycle.
Context {rt : JsRuntime}.

Lemma get_insert_other (o : JsObject) k k' v :
  k <> k' -> get (<[k := v]> o) k' = get o k'.
Proof. intros H. unfold get. by rewrite lookup_insert_ne. Qed.

Lemma fallbackResult_calls_succeed saved :
  summaryCallsSucceed (fallbackResult saved).
Proof.
  unfold summaryCallsSucceed, fallbackResult, get.
  split; simplify_map_eq; cbn; eauto.
Qed.

Lemma delivered_calls_succeed s saved :
  summaryCallsSucceed (delivered s saved).
Proof.
  unfold delivered, caught, tried.
  destruct s as [aiResult|err]; [|apply fallbackResult_calls_succeed].
  destruct (get aiResult "signal") eqn:Hs; cbn;
    try apply fallbackResult_calls_succeed.
  destruct (get aiResult "eodMovement") eqn:He; cbn;
    try apply fallbackResult_calls_succeed.
  all: unfold summaryCallsSucceed;
    rewrite !get_insert_other, Hs, He by done; cbn; eauto.
Qed.

(** X5. Whenever the summary is shown, [result.signal] is a string and
    [result.eodMovement] a number, undefined or null, so that
    [result.signal.replace] and [formatEodMovement] do not throw,
    provided this holds of the saved result the panel was given, if any. *)
Theorem summary_calls_succeed p st res :
  reachable p st ->
  (forall saved, savedResult p = Some saved -> summaryCallsSucceed saved) ->
  summary (render p st) = Some res ->
  summaryCallsSucceed res.
Proof.
  intros Hreach Hsaved Hsum.
  assert (forall r0, result st = Some r0 -> summaryCallsSucceed r0) as H.
  { clear Hsum res. revert st Hreach.
    apply (reachable_ind_transition p
             (fun st => forall r0, result st = Some r0 ->
                        summaryCallsSucceed r0)).
    - destruct (mount_cells p) as (_ & _ & _ & _ & _ & _ & -> & _). done.
    - intros st0 st' H Ht.
      destruct Ht as [n Hn | Hoff | r m all Hr | r s all Hr | Hon];
        cbn; try done; destruct (mounted st0); try done.
      intros r0 [= <-]. apply delivered_calls_succeed. }
  cbn in Hsum. destruct (complete st); [|done]. by apply H.
Qed.

(** X6. On a mounted panel the two start buttons are never shown
    together, one of them is shown exactly when the guard is clear, and
    a click on a button that is shown always starts a run: it sets the
    guard and dispatches the next service call. *)
Theorem start_button_starts p st :
  reachable p st ->
  mounted st = true ->
  let v := render p st in
  analyzeButton v && reanalyzeButton v = false /\
  analyzeButton v || reanalyzeButton v = negb (analysisInProgress st) /\
  (analyzeButton v || reanalyzeButton v = true ->
   calls (step p st Click) = S (calls st) /\
   analysisInProgress (step p st Click) = true /\
   is_Some (awaiting (step p st Click) !! calls st)).
Proof.
  intros Hreach Hm v. subst v. cbn [render analyzeButton reanalyzeButton].
  destruct (guard_reachable p st Hreach) as [_ Hg].
  destruct (Hg Hm) as [Han _]. rewrite <- Han.
  split; [by destruct (analyzing st), (complete st)|].
  split; [by destruct (analyzing st), (complete st)|].
  intros Hshown.
  assert (analyzing st = false) as Ha.
  { by destruct (analyzing st), (complete st). }
  cbn [step]. rewrite Hm, Ha.
  rewrite performRealAIAnalysis_started by congruence.
  cbn -[startupLogs]. rewrite lookup_insert_eq. eauto.
Qed.

(** X7. While a run is in flight on a mounted panel the spinner and the
    "Processing" indicator are shown and nothing else but the log: no
    start button, no "Complete" badge, no summary and no hint, even if
    an earlier result is still stored; the terminal shows the entries of
    that one run. *)
Theorem running_view p st :
  reachable p st ->
  mounted st = true ->
  analysisInProgress st = true ->
  let v := render p st in
  analyzingBadge v = true /\ processing v = true /\
  completeBadge v = false /\ summary v = None /\
  analyzeButton v = false /\ reanalyzeButton v = false /\
  placeholder v = None /\
  exists r all,
    awaiting st = {[r := all]} /\ logLines v = map logLine all.
Proof.
  intros Hreach Hm Hg v. subst v. cbn.
  destruct (guard_reachable p st Hreach) as [_ Hinv].
  destruct (Hinv Hm) as [Han Hone]. rewrite Hg in *.
  pose proof (flags_reachable p st Hreach) as Hf. unfold flags_inv in Hf.
  rewrite Han in *. cbn in Hf. rewrite Hf. cbn.
  rewrite andb_false_r.
  destruct Hone as (r & all & Hone & Hlogs).
  repeat split; try done. exists r, all. by rewrite Hlogs.
Qed.

(** X8. After a failed run on a mounted panel the fallback result is
    stored but not shown: no summary and no "Complete" badge, whatever
    was complete before; the button offered is "Analyze with AI", and
    the last line of the terminal is the error, in the error colour. *)
Theorem failed_run_view p st r all err :
  reachable p st ->
  mounted st = true ->
  awaiting st !! r = Some all ->
  let st' := step p st (Reject r err) in
  let v := render p st' in
  (exists errorLog,
     result st' = Some (fallbackResult (all ++ [errorLog])) /\
     last (logLines v)
     = Some (mkLine "text-red-400" (timestamp errorLog)
                    (failureMessage err))) /\
  summary v = None /\ completeBadge v = false /\
  analyzingBadge v = false /\
  analyzeButton v = true /\ reanalyzeButton v = false.
Proof.
  intros Hreach Hm Hr st' v. subst v st'.
  rewrite (step_Reject p st r all) by done.
  destruct (guard_reachable p st Hreach) as [_ Hinv].
  destruct (Hinv Hm) as [Han Hone].
  assert (analysisInProgress st = true) as Hg.
  { destruct (analysisInProgress st); [done|].
    by rewrite Hone, lookup_empty in Hr. }
  pose proof (flags_reachable p st Hreach) as Hf. unfold flags_inv in Hf.
  rewrite Han, Hg in Hf. cbn in Hf.
  cbn. rewrite Hm, Hf. cbn.
  split; [|done].
  eexists. split; [reflexivity|].
  rewrite map_app. cbn. apply last_snoc.
Qed.

(** X9. After a run on a mounted panel that the service resolved with a
    string signal and a numeric or absent eodMovement, the final result
    is stored and shown: "Complete" badge, summary, and the button
    offered is "Re-analyze". *)
Theorem completed_run_view p st r all aiResult s :
  reachable p st ->
  mounted st = true ->
  awaiting st !! r = Some all ->
  get aiResult "signal" = VStr s ->
  (match get aiResult "eodMovement" with
   | VUndefined | VNull | VNum _ => True
   | _ => False
   end) ->
  let st' := step p st (Resolve r aiResult) in
  let v := render p st' in
  (exists saved,
     summary v = Some (<["savedLogs" := VLogs saved]> aiResult) /\
     logLines v = map logLine saved) /\
  completeBadge v = true /\ analyzingBadge v = false /\
  analyzeButton v = false /\ reanalyzeButton v = true /\
  placeholder v = None.
Proof.
  intros Hreach Hm Hr Hs He st' v. subst v st'.
  rewrite (step_Resolve p st r all) by done.
  destruct (guard_reachable p st Hreach) as [_ Hinv].
  destruct (Hinv Hm) as [Han Hone].
  assert (analysisInProgress st = true) as Hg.
  { destruct (analysisInProgress st); [done|].
    by rewrite Hone, lookup_empty in Hr. }
  rewrite Hg in Hone.
  destruct Hone as (r0 & all0 & Hone & Hlogs).
  rewrite Hone in Hr. apply lookup_singleton_Some in Hr as [-> ->].
  assert (caught (Resolved aiResult) = None) as Hc.
  { unfold caught, tried. rewrite Hs.
    by destruct (get aiResult "eodMovement"). }
  assert (settledLogs (Resolved aiResult) (clock st) <> []) as Hne.
  { unfold settledLogs, triedLogs, tried. rewrite Hs.
    by destruct (get aiResult "eodMovement"). }
  cbn [render settled analyzingBadge completeBadge analyzeButton
       reanalyzeButton logLines placeholder summary logs analyzing complete
       result].
  rewrite Hm. unfold delivered. rewrite Hc. cbn [negb andb].
  split.
  - eexists. split; [reflexivity|]. by rewrite Hlogs.
  - repeat split.
    destruct (logs st ++ settledLogs (Resolved aiResult) (clock st)) eqn:E;
      [|reflexivity].
    by apply app_eq_nil in E as [_ E].
Qed.

End ViewAndLifecycle.

Section Snapshots.
Context {rt : JsRuntime}.

(** X10. When a run on a mounted panel settles, either way, the result
    stored is the one handed to the container, and its savedLogs are
    exactly the log sequence the terminal shows. *)
Theorem terminal_is_savedLogs p st ev r all :
  reachable p st ->
  mounted st = true ->
  onAnalysisComplete p = true ->
  awaiting st !! r = Some all ->
  settles r ev = true ->
  let st' := step p st ev in
  exists res,
    result st' = Some res /\
    effects st' = effects st ++ [OnAnalysisComplete (ticker (stock p)) res] /\
    res !! "savedLogs" = Some (VLogs (logs st')) /\
    logLines (render p st') = map logLine (logs st').
Proof.
  intros Hreach Hm Hcb Hr Hev st'. subst st'.
  destruct (step_settles p st ev r all Hr Hev) as [s ->].
  destruct (guard_reachable p st Hreach) as [_ Hinv].
  destruct (Hinv Hm) as [_ Hone].
  assert (logs st = all) as Hlogs.
  { destruct (analysisInProgress st).
    - destruct Hone as (r0 & all0 & Hone & Hlogs). rewrite Hone in Hr.
      by apply lookup_singleton_Some in Hr as [_ <-].
    - by rewrite Hone, lookup_empty in Hr. }
  eexists.
  cbn [settled result effects logs render logLines].
  unfold completeEffects. rewrite Hm, Hcb, Hlogs.
  split; [reflexivity|]. split; [reflexivity|].
  split; [apply delivered_savedLogs|reflexivity].
Qed.

(** X11. A panel mounted with the logs and the result that a mounted
    panel held after a settled run shows the same logs and the same
    result, sets no timer and calls nothing. It shows them as complete,
    also when that run had failed and the first panel did not. *)
Theorem restore_after_run p st r all ev p' :
  reachable p st ->
  mounted st = true ->
  awaiting st !! r = Some all ->
  settles r ev = true ->
  let st' := step p st ev in
  savedLogs p' = Some (logs st') ->
  savedResult p' = result st' ->
  logs (mount p') = logs st' /\
  result (mount p') = result st' /\
  complete (mount p') = true /\
  timers (mount p') = 0 /\ effects (mount p') = [] /\
  (forall err, ev = Reject r err -> complete st' = false).
Proof.
  intros Hreach Hm Hr Hev st' Hl Hres. subst st'.
  destruct (step_settles p st ev r all Hr Hev) as [s E].
  assert (is_Some (result (step p st ev))) as [res Hsome].
  { rewrite E. cbn. rewrite Hm. eauto. }
  rewrite Hsome in Hres.
  assert (hasExistingAnalysis p' = true) as Hex.
  { unfold hasExistingAnalysis. by rewrite Hres. }
  destruct (mount_existing p' Hex) as [Ht He].
  destruct (mount_cells p') as (_ & _ & _ & _ & _ & Hco & Hr' & Hl').
  rewrite Hl', Hr', Hco, Hl, Hres, Hsome.
  repeat split; try done.
  intros err ->. rewrite (step_Reject p st r all) by done.
  destruct (guard_reachable p st Hreach) as [_ Hinv].
  destruct (Hinv Hm) as [Han Hone].
  assert (analysisInProgress st = true) as Hg.
  { destruct (analysisInProgress st); [done|].
    by rewrite Hone, lookup_empty in Hr. }
  pose proof (flags_reachable p st Hreach) as Hf. unfold flags_inv in Hf.
  rewrite Han, Hg in Hf. cbn in Hf.
  cbn. by rewrite Hm.
Qed.

(** X12. A result whose signal is not a string, or whose eodMovement is
    defined and not a number, is handled as a failure although the
    service resolved: the success entry is logged first (and, in the
    second case, the result and reasoning entries), then the error entry
    with the engine's TypeError, and the container gets the fallback
    result. *)
Theorem malformed_result_fails p st r all aiResult :
  onAnalysisComplete p = true ->
  awaiting st !! r = Some all ->
  let st' := step p st (Resolve r aiResult) in
  ((forall s, get aiResult "signal" <> VStr s) ->
   exists log5 errorLog,
     effects st'
     = effects st
       ++ [OnAnalysisComplete (ticker (stock p))
             (fallbackResult (all ++ [log5; errorLog]))] /\
     type log5 = t_success /\ type errorLog = t_error /\
     message errorLog
     = failureMessage (typeError (get aiResult "signal") "toUpperCase")) /\
  (forall s, get aiResult "signal" = VStr s ->
   (match get aiResult "eodMovement" with
    | VBool _ | VStr _ | VLogs _ => True
    | _ => False
    end) ->
   exists log5 log6 log7 errorLog,
     effects st'
     = effects st
       ++ [OnAnalysisComplete (ticker (stock p))
             (fallbackResult (all ++ [log5; log6; log7; errorLog]))] /\
     map type [log5; log6; log7; errorLog]
     = [t_success; t_result; t_reasoning; t_error] /\
     message errorLog
     = failureMessage (typeError (get aiResult "eodMovement") "toFixed")).
Proof.
  intros Hcb Hr st'. subst st'.
  rewrite (step_Resolve p st r all) by done.
  cbn [settled effects]. unfold completeEffects, delivered, settledLogs,
    caught, triedLogs, tried. rewrite Hcb.
  split.
  - intros Hs.
    destruct (get aiResult "signal") as [ | |b|q|s|l] eqn:E;
      try (exfalso; by eapply Hs); cbn;
      eexists _, _; repeat split; reflexivity.
  - intros s -> He.
    destruct (get aiResult "eodMovement") as [ | |b|q|s'|l] eqn:E;
      try done; cbn;
      eexists _, _, _, _; repeat split; reflexivity.
Qed.

(** X14. The "SAVED" badge is shown for every saved log list, also an
    empty one; yet a panel with an empty list and no saved result counts
    as having no analysis, and with autoStart it sets its timer. That is
    the one case in which the badge is shown over a panel that starts on
    its own. *)
Theorem saved_badge_without_analysis p st :
  (savedBadge (render p st) = true /\ hasExistingAnalysis p = false
   <-> savedLogs p = Some [] /\ savedResult p = None) /\
  (savedLogs p = Some [] -> savedResult p = None -> autoStart p = true ->
   savedBadge (render p (mount p)) = true /\
   effects (mount p) = [SetTimeout 500]).
Proof.
  split.
  - unfold hasExistingAnalysis. cbn.
    destruct (savedLogs p) as [[|x l]|], (savedResult p);
      split; intros [H1 H2]; done.
  - intros Hl Hr Ha. split; [cbn; by rewrite Hl|].
    apply mount_autoStart; [done|].
    unfold hasExistingAnalysis. by rewrite Hr, Hl.
Qed.

Lemma settledLogs_nonempty s n : settledLogs s n <> [].
Proof.
  unfold settledLogs, caught, triedLogs, tried.
  destruct s as [aiResult|err]; [|done].
  destruct (get aiResult "signal"); try done.
  destruct (get aiResult "eodMovement"); done.
Qed.

(** X15. The hint of the empty terminal is shown on a mounted panel only
    before its first service call, and only while the log is empty and
    nothing runs; which of the two hints it is depends on the saved
    result alone. *)
Theorem placeholder_before_first_run p st hint :
  reachable p st ->
  mounted st = true ->
  placeholder (render p st) = Some hint ->
  calls st = 0 /\ logs st = [] /\ analyzing st = false /\
  (hint = SavedHint <-> is_Some (savedResult p)).
Proof.
  intros Hreach Hm Hp.
  assert (mounted st = true -> calls st <> 0 -> logs st <> []) as Hinv.
  { clear Hm Hp. revert st Hreach.
    apply (reachable_ind_transition p
             (fun st => mounted st = true -> calls st <> 0 ->
                        logs st <> [])).
    - destruct (mount_cells p) as (_ & _ & _ & _ & -> & _). done.
    - intros st0 st' H Ht.
      destruct Ht as [n Hn | Hoff | r m all Hr | r s all Hr | Hon];
        cbn -[startupLogs]; try done;
        intros Hm' Hc; rewrite Hm' in *; try done.
      + intros E. by apply app_eq_nil in E as [_ E].
      + intros E. apply app_eq_nil in E as [_ E].
        by apply settledLogs_nonempty in E. }
  cbn in Hp.
  destruct (logs st) as [|x l] eqn:Hl; [|done].
  destruct (analyzing st); [done|]. cbn in Hp.
  split.
  - destruct (calls st) eqn:Hc; [done|].
    exfalso. apply Hinv; congruence.
  - repeat split; try done.
    + intros ->. destruct (savedResult p); [eauto|]. by injection Hp.
    + intros [x Hx]. rewrite Hx in Hp. by injection Hp as <-.
Qed.

End Snapshots.

Section StartConditions.
Context {rt : JsRuntime}.

Lemma mount_manual p :
  autoStart p = false ->
  timers (mount p) = 0 /\ effects (mount p) = [].
Proof.
  unfold mount, loadSavedEffect, autoStartEffect, init, hasExistingAnalysis.
  destruct (savedLogs p) as [[|x l]|], (savedResult p), (autoStart p);
    cbn; done.
Qed.

(** X16. A panel mounted without autoStart sets no timer, and along any
    events without a click it calls the service never and does nothing
    to the outside, with or without a snapshot. *)
Theorem no_call_without_autoStart p evs :
  autoStart p = false ->
  existsb isClick evs = false ->
  let st := run p evs in
  timers (mount p) = 0 /\
  dispatched st = [] /\ effects st = [] /\ calls st = 0 /\
  logs st = logs (mount p) /\ result st = result (mount p) /\
  analyzing st = false.
Proof.
  intros Hauto Hev st.
  destruct (mount_manual p Hauto) as [Ht0 He0].
  split; [done|].
  assert (timers st = 0 /\ awaiting st = ∅ /\ effects st = [] /\
          calls st = 0 /\ logs st = logs (mount p) /\
          result st = result (mount p) /\
          analyzing st = analyzing (mount p)) as H.
  { subst st. unfold run.
    induction evs as [|ev evs IH] using rev_ind.
    - destruct (mount_cells p) as (_ & _ & _ & Ha & Hc & _). cbn. auto 10.
    - rewrite existsb_app in Hev. cbn in Hev.
      apply orb_false_elim in Hev as [Hev1 Hev2].
      rewrite orb_false_r in Hev2.
      destruct (IH Hev1) as (Ht & Ha & He & Hc & Hl & Hr & Han).
      rewrite fold_left_app. cbn [fold_left].
      destruct (step_idle p _ ev Ht Ha Hev2)
        as (Ht' & Ha' & He' & Hc' & Hl' & Hr' & _ & Han').
      rewrite Ht', Ha', He', Hc', Hl', Hr', Han'. auto 10. }
  destruct H as (_ & _ & He & Hc & Hl & Hr & Han).
  destruct (mount_cells p) as (Ha0 & _).
  unfold dispatched. rewrite He, Hc, Hl, Hr, Han. auto 10.
Qed.

Lemma step_same_cells p a b st1 st2 ev :
  set_effects [] st1 = set_effects [] st2 ->
  set_effects [] (step (withCallbacks p a b) st1 ev)
  = set_effects [] (step p st2 ev).
Proof.
  intros H.
  destruct st1 as [lg an co re gu mo ti aw ca cl ef1].
  destruct st2 as [lg2 an2 co2 re2 gu2 mo2 ti2 aw2 ca2 cl2 ef2].
  injection H as -> -> -> -> -> -> -> -> -> ->.
  destruct ev as [ | | r m | r aiResult | r err | ]; cbn [step mounted
    analyzing timers].
  - destruct mo2; [|done]. cbn [analyzing].
    destruct (performRealAIAnalysis_cases (withCallbacks p a b) an2
                (mkState lg2 an2 co2 re2 gu2 true ti2 aw2 ca2 cl2 ef1))
      as [E1|(Ha & Hg & E1)];
    destruct (performRealAIAnalysis_cases p an2
                (mkState lg2 an2 co2 re2 gu2 true ti2 aw2 ca2 cl2 ef2))
      as [E2|(Ha' & Hg' & E2)]; rewrite E1, E2; try done.
    + exfalso. cbn in Hg'. subst.
      rewrite performRealAIAnalysis_started in E1 by done.
      by injection E1.
    + exfalso. cbn in Hg. subst.
      rewrite performRealAIAnalysis_started in E2 by done.
      by injection E2.
  - destruct ti2 as [|n]; [done|]. cbn [set_timers].
    destruct gu2.
    + rewrite !performRealAIAnalysis_guarded by done. done.
    + rewrite !performRealAIAnalysis_started by done. done.
  - destruct (aw2 !! r) as [all|] eqn:Hr.
    + rewrite !(onProgress_awaiting r m all) by done. done.
    + rewrite !onProgress_idle by done. done.
  - destruct (aw2 !! r) as [all|] eqn:Hr.
    + rewrite !(settle_awaiting _ r _ all) by done. done.
    + rewrite !settle_idle by done. done.
  - destruct (aw2 !! r) as [all|] eqn:Hr.
    + rewrite !(settle_awaiting _ r _ all) by done. done.
    + rewrite !settle_idle by done. done.
  - unfold unmount. cbn [mounted]. by destruct mo2.
Qed.

Lemma mount_same_cells p a b :
  set_effects [] (mount (withCallbacks p a b)) = set_effects [] (mount p).
Proof.
  unfold mount, loadSavedEffect, autoStartEffect, init, hasExistingAnalysis,
    withCallbacks.
  cbn [savedLogs savedResult autoStart].
  destruct (savedLogs p) as [[|x l]|], (savedResult p), (autoStart p);
    reflexivity.
Qed.

Lemma no_callback_effects p st :
  onAnalysisStart p = false ->
  onAnalysisComplete p = false ->
  reachable p st ->
  count isStart (effects st) = 0 /\ count isComplete (effects st) = 0.
Proof.
  intros Hs Hc. revert st.
  apply (reachable_ind_transition p
           (fun st => count isStart (effects st) = 0 /\
                      count isComplete (effects st) = 0)).
  - unfold mount, loadSavedEffect, autoStartEffect, init,
      hasExistingAnalysis.
    destruct (savedLogs p) as [[|x l]|], (savedResult p), (autoStart p);
      cbn; done.
  - intros st0 st' [H1 H2] Ht.
    destruct Ht as [n Hn | Hoff | r m all Hr | r s all Hr | Hon];
      cbn -[startupLogs]; try done.
    + unfold startEffects. rewrite Hs, !count_app, H1, H2. done.
    + unfold completeEffects. rewrite Hc, !count_app, H1, H2. done.
Qed.

(** X17. The two callbacks are optional in earnest: along any events a
    panel goes through the same states whether or not they are supplied;
    only the notifications differ, and a panel without callbacks makes
    none. *)
Theorem callbacks_are_optional p a b evs :
  set_effects [] (run (withCallbacks p a b) evs)
  = set_effects [] (run p evs) /\
  count isStart (effects (run (withCallbacks p false false) evs)) = 0 /\
  count isComplete (effects (run (withCallbacks p false false) evs)) = 0.
Proof.
  split.
  - unfold run. induction evs as [|ev evs IH] using rev_ind.
    + apply mount_same_cells.
    + rewrite !fold_left_app. cbn [fold_left]. by apply step_same_cells.
  - apply (no_callback_effects (withCallbacks p false false)); try done.
    apply reachable_run.
Qed.

End StartConditions.

(** * The claims at concrete inputs *)

#[local] Existing Instance Example.runtime.

Lemma savedLogs_on_success_witness :
  let p := Example.fresh true in
  let st := run p [TimerFires; Progress 0 "reading the news"] in
  exists saved resultEntry reasoningEntry forecastEntry,
    effects (step p st (Resolve 0 Example.strongMomentum))
    = effects st
      ++ [OnAnalysisComplete "AAPL"
            (<["savedLogs" := VLogs saved]> Example.strongMomentum)] /\
    map type saved
    = [t_system; t_info; t_info; t_system; t_progress;
       t_success; t_result; t_reasoning; t_forecast] /\
    saved !! 6 = Some resultEntry /\
    message resultEntry = "🎯 Signal: BUY (72%)" /\
    saved !! 7 = Some reasoningEntry /\
    message reasoningEntry = "💭 strong momentum" /\
    saved !! 8 = Some forecastEntry /\
    message forecastEntry = "📈 EOD Movement: +1.8%".
Proof.
  intros p st.
  destruct (savedLogs_on_success p st 0
              (startupLogs p 0 ++ [entry 4 "reading the news" t_progress])
              Example.strongMomentum "buy")
    as (_ & H & _).
  - apply reachable_run.
  - vm_compute. reflexivity.
  - vm_compute. reflexivity.
  - vm_compute. reflexivity.
  - destruct (H 1.8%Q eq_refl)
      as (l5 & l6 & l7 & l8 & He & Ht & _ & _ & H6 & _ & H7 & H8 & _).
    exists (((startupLogs p 0 ++ [entry 4 "reading the news" t_progress])
             ++ [l5; l6; l7; l8])), l6, l7, l8.
    split; [exact He|].
    split; [rewrite map_app, Ht; reflexivity|].
    split; [reflexivity|].
    split; [rewrite (H6 72%Q eq_refl); vm_compute; reflexivity|].
    split; [reflexivity|].
    split; [rewrite (H7 "strong momentum" eq_refl); reflexivity|].
    split; [reflexivity|].
    rewrite H8. vm_compute. reflexivity.
Defined.

Lemma progress_entries_witness :
  let p := Example.fresh false in
  let evs := [Progress 0 "reading the news"; Unmount;
              Progress 0 "scoring"] in
  let st2 := fold_left (step p) evs (step p (mount p) Click) in
  exists init progs,
    awaiting st2 !! calls (mount p) = Some (init ++ progs) /\
    map type init = [t_system; t_info; t_info; t_system] /\
    map message progs = ["reading the news"; "scoring"] /\
    map type progs = [t_progress; t_progress].
Proof.
  intros p evs st2.
  destruct (progress_entries p (mount p) Click evs)
    as (init & progs & H1 & H2 & H3 & H4 & _).
  - constructor.
  - vm_compute. reflexivity.
  - vm_compute. reflexivity.
  - vm_compute. reflexivity.
  - exists init, progs.
    split; [exact H1|]. split; [exact H2|]. split; [exact H3|exact H4].
Defined.

Lemma fallback_on_rejection_witness :
  let p := Example.fresh false in
  let st := run p [Click; Progress 0 "reading the news"] in
  exists errorLog,
    type errorLog = t_error /\
    effects (step p st (Reject 0 Example.timeout))
    = effects st
      ++ [OnAnalysisComplete "AAPL"
            (fallbackResult
               ((startupLogs p 0 ++ [entry 4 "reading the news" t_progress])
                ++ [errorLog]))].
Proof.
  intros p st.
  destruct (fallback_on_rejection p st 0
              (startupLogs p 0 ++ [entry 4 "reading the news" t_progress])
              Example.timeout)
    as (errorLog & Ht & _ & He & _).
  - vm_compute. reflexivity.
  - vm_compute. reflexivity.
  - exists errorLog. auto.
Defined.

(** The reasoning of the fallback result is not the specification's
    "service unavailable". *)
Lemma fallback_reasoning_text :
  let p := Example.fresh false in
  let st := run p [Click; Reject 0 Example.timeout] in
  let fb := fallbackResult
              (startupLogs p 0 ++ [entry 4 (failureMessage Example.timeout) t_error]) in
  result st = Some fb /\
  fb !! "reasoning" = Some (VStr "AI service unavailable") /\
  fb !! "reasoning" <> Some (VStr "service unavailable").
Proof.
  intros p st fb. split; [vm_compute; reflexivity|]. split.
  - vm_compute. reflexivity.
  - vm_compute. discriminate.
Qed.

Lemma panel_invariant_witness :
  let p := Example.fresh true in
  let st := run p [TimerFires; Progress 0 "reading the news"] in
  analyzing st && complete st = false /\
  analysisInProgress (step p st (Reject 0 Example.timeout)) = false /\
  analysisInProgress (step p st Unmount) = false.
Proof.
  intros p st.
  destruct (panel_invariant p st) as (H1 & _ & _ & _ & H5).
  - apply reachable_run.
  - split; [exact H1|]. split; apply H5.
    + vm_compute. eexists. reflexivity.
    + vm_compute. reflexivity.
Defined.

(** While a re-analysis is running the result of the run before is
    still present, although [complete] has been cleared and no snapshot
    supplied a result. *)
Lemma result_without_complete :
  let p := Example.fresh false in
  let st := run p [Click; Resolve 0 Example.strongMomentum; Click] in
  reachable p st /\
  is_Some (result st) /\ complete st = false /\ savedResult p = None /\
  ~ result_iff_complete p st.
Proof.
  intros p st. split; [apply reachable_run|].
  assert (is_Some (result st)) as Hres.
  { assert (match result st with Some _ => true | None => false end = true)
      as E by (vm_compute; reflexivity).
    destruct (result st); [by eexists | discriminate E]. }
  assert (complete st = false) as Hco by (vm_compute; reflexivity).
  split; [exact Hres|]. split; [exact Hco|].
  split; [vm_compute; reflexivity|].
  intros [H _]. destruct (H Hres) as [Hc|Hs].
  - rewrite Hco in Hc. discriminate Hc.
  - vm_compute in Hs. by destruct Hs.
Qed.

Lemma single_run_while_mounted_witness :
  let p := Example.fresh true in
  let st := run p [Click] in
  size (awaiting st) <= 1 /\ step p st Click = st /\
  step p st TimerFires = set_timers 0 st.
Proof.
  intros p st.
  destruct (single_run_while_mounted p st) as (H1 & _ & H3).
  - apply reachable_run.
  - assert (analysisInProgress st = true) as Hg by (vm_compute; reflexivity).
    destruct (H3 Hg) as (_ & Hc & [Ht|(n & Hn & Ht)]).
    + split; [apply H1; vm_compute; reflexivity|]. split; [exact Hc|].
      exfalso. vm_compute in Ht. discriminate Ht.
    + split; [apply H1; vm_compute; reflexivity|]. split; [exact Hc|].
      vm_compute in Hn. injection Hn as <-. exact Ht.
Defined.

(** C5 fails after the unmount.  The cleanup clears the guard and
    leaves the auto-start timer pending: after a click, the unmount and
    the timer, in this order, the service has been called twice and both
    calls are pending, so two runs are in flight. *)
Lemma two_runs_after_unmount :
  let p := Example.fresh true in
  let st := run p [Click; Unmount; TimerFires] in
  reachable p st /\
  size (awaiting st) = 2 /\
  dispatched st = [(0, Example.AAPL); (1, Example.AAPL)].
Proof.
  intros p st. split; [apply reachable_run|].
  split; vm_compute; reflexivity.
Qed.

Lemma snapshot_shown_without_call_witness :
  let st := run Example.restored [TimerFires; Unmount] in
  dispatched st = [] /\
  logs st = [mkLog 0 "0" "✅ AI analysis complete" t_success] /\
  result st = Some Example.strongMomentum.
Proof.
  intros st.
  destruct (snapshot_shown_without_call Example.restored [TimerFires; Unmount])
    as (H1 & _ & _ & H4 & H5 & _).
  - vm_compute. reflexivity.
  - vm_compute. reflexivity.
  - split; [exact H1|]. split; [exact H4|exact H5].
Defined.

Lemma auto_start_once_witness :
  dispatched (run (Example.fresh true)
                  [TimerFires; Progress 0 "reading the news";
                   Resolve 0 Example.strongMomentum; TimerFires; Unmount])
  = [(0, Example.AAPL)].
Proof.
  destruct (auto_start_once (Example.fresh true)
              [TimerFires; Progress 0 "reading the news";
               Resolve 0 Example.strongMomentum; TimerFires; Unmount])
    as (_ & _ & H).
  - vm_compute. reflexivity.
  - vm_compute. reflexivity.
  - vm_compute. reflexivity.
  - exact H.
Defined.

Lemma callbacks_once_witness :
  let p := Example.fresh true in
  let st := run p [TimerFires; Resolve 0 Example.strongMomentum; Click] in
  count isStart (effects st) = 2 /\
  count isComplete (effects st) + size (awaiting st) = 2 /\
  fst (settle p 1 (Rejected Example.timeout) st) = Normal tt.
Proof.
  intros p st.
  destruct (callbacks_once p st) as (_ & H2 & H3 & _ & H5).
  - apply reachable_run.
  - vm_compute. reflexivity.
  - vm_compute. reflexivity.
  - split; [exact H3|]. split; [exact H5|].
    eapply H2. vm_compute. reflexivity.
Defined.

Lemma logs_reset_on_start_witness :
  let p := Example.fresh false in
  let st := run p [Click; Resolve 0 Example.strongMomentum] in
  length (logs st) = 8 /\
  logs (step p st Click) = startupLogs p 8 /\
  awaiting (step p st Click) !! 1 = Some (startupLogs p 8).
Proof.
  intros p st.
  destruct (logs_reset_on_start p st Click) as (H1 & H2 & _).
  - vm_compute. reflexivity.
  - vm_compute. reflexivity.
  - split; [vm_compute; reflexivity|]. split.
    + apply H2. vm_compute. reflexivity.
    + exact H1.
Defined.

Lemma fallback_fields_witness :
  let p := Example.fresh false in
  let st := run p [Click] in
  exists fb,
    effects (step p st (Reject 0 Example.timeout))
    = effects st ++ [OnAnalysisComplete "AAPL" fb] /\
    fb !! "analysisTimestamp" = None /\
    fb !! "hasFullArticle" = None.
Proof.
  intros p st.
  destruct (fallback_fields p st 0 (startupLogs p 0) Example.timeout)
    as (fb & He & _ & H1 & _ & _ & H4).
  - vm_compute. reflexivity.
  - vm_compute. reflexivity.
  - exists fb. auto.
Defined.

(** * Rendering and the lifecycle at concrete inputs *)

Lemma summary_calls_succeed_witness :
  let p := Example.fresh false in
  let st := run p [Click; Resolve 0 Example.strongMomentum] in
  exists res,
    summary (render p st) = Some res /\ summaryCallsSucceed res.
Proof.
  intros p st.
  assert (match summary (render p st) with
          | Some _ => true
          | None => false
          end = true) as Hs by (vm_compute; reflexivity).
  destruct (summary (render p st)) as [res|] eqn:E; [|discriminate Hs].
  exists res. split; [reflexivity|].
  apply (summary_calls_succeed p st res).
  - apply reachable_run.
  - intros saved H. vm_compute in H. discriminate H.
  - exact E.
Defined.

Lemma start_button_starts_witness :
  let p := Example.fresh false in
  calls (step p (mount p) Click) = S (calls (mount p)).
Proof.
  intros p.
  destruct (start_button_starts p (mount p)) as (_ & _ & H).
  - constructor.
  - vm_compute. reflexivity.
  - apply H. vm_compute. reflexivity.
Defined.

Lemma running_view_witness :
  let p := Example.restored in
  let st := run p [Click] in
  analyzingBadge (render p st) = true /\ summary (render p st) = None.
Proof.
  intros p st.
  destruct (running_view p st) as (H1 & _ & _ & H4 & _).
  - apply reachable_run.
  - vm_compute. reflexivity.
  - vm_compute. reflexivity.
  - split; [exact H1|exact H4].
Defined.

Lemma failed_run_view_witness :
  let p := Example.restored in
  let st := run p [Click] in
  let v := render p (step p st (Reject 0 Example.timeout)) in
  summary v = None /\ completeBadge v = false /\ analyzeButton v = true.
Proof.
  intros p st v.
  destruct (failed_run_view p st 0 (startupLogs p 0) Example.timeout)
    as (_ & H2 & H3 & _ & H5 & _).
  - apply reachable_run.
  - vm_compute. reflexivity.
  - vm_compute. reflexivity.
  - split; [exact H2|]. split; [exact H3|exact H5].
Defined.

Lemma completed_run_view_witness :
  let p := Example.fresh false in
  let st := run p [Click] in
  let v := render p (step p st (Resolve 0 Example.strongMomentum)) in
  completeBadge v = true /\ reanalyzeButton v = true.
Proof.
  intros p st v.
  destruct (completed_run_view p st 0 (startupLogs p 0)
              Example.strongMomentum "buy")
    as (_ & H2 & _ & _ & H5 & _).
  - apply reachable_run.
  - vm_compute. reflexivity.
  - vm_compute. reflexivity.
  - vm_compute. reflexivity.
  - vm_compute. exact I.
  - split; [exact H2|exact H5].
Defined.

Lemma terminal_is_savedLogs_witness :
  let p := Example.fresh false in
  let st := run p [Click; Progress 0 "reading the news"] in
  let st' := step p st (Reject 0 Example.timeout) in
  exists res,
    result st' = Some res /\
    res !! "savedLogs" = Some (VLogs (logs st')).
Proof.
  intros p st st'.
  destruct (terminal_is_savedLogs p st (Reject 0 Example.timeout) 0
              (startupLogs p 0 ++ [entry 4 "reading the news" t_progress]))
    as (res & H1 & _ & H3 & _).
  - apply reachable_run.
  - vm_compute. reflexivity.
  - vm_compute. reflexivity.
  - vm_compute. reflexivity.
  - vm_compute. reflexivity.
  - exists res. split; [exact H1|exact H3].
Defined.

Lemma restore_after_run_witness :
  let p := Example.fresh false in
  let st := run p [Click] in
  let st' := step p st (Reject 0 Example.timeout) in
  let p' := mkProps Example.AAPL true true (Some (logs st')) (result st')
                    true in
  logs (mount p') = logs st' /\ complete (mount p') = true /\
  complete st' = false /\ effects (mount p') = [].
Proof.
  intros p st st' p'.
  destruct (restore_after_run p st 0 (startupLogs p 0)
              (Reject 0 Example.timeout) p')
    as (H1 & _ & H3 & _ & H5 & H6).
  - apply reachable_run.
  - vm_compute. reflexivity.
  - vm_compute. reflexivity.
  - vm_compute. reflexivity.
  - reflexivity.
  - reflexivity.
  - split; [exact H1|]. split; [exact H3|].
    split; [exact (H6 Example.timeout eq_refl)|exact H5].
Defined.

Lemma malformed_result_fails_witness :
  let p := Example.fresh false in
  let st := run p [Click] in
  exists log5 errorLog,
    effects (step p st (Resolve 0 ∅))
    = effects st
      ++ [OnAnalysisComplete "AAPL"
            (fallbackResult (startupLogs p 0 ++ [log5; errorLog]))] /\
    type log5 = t_success /\ type errorLog = t_error.
Proof.
  intros p st.
  destruct (malformed_result_fails p st 0 (startupLogs p 0) ∅) as [H _].
  - vm_compute. reflexivity.
  - vm_compute. reflexivity.
  - destruct H as (log5 & errorLog & He & H5 & Herr & _).
    + intros s Hs. vm_compute in Hs. discriminate Hs.
    + exists log5, errorLog. split; [exact He|]. split; [exact H5|exact Herr].
Defined.

Lemma placeholder_before_first_run_witness :
  let p := Example.fresh false in
  calls (mount p) = 0 /\ logs (mount p) = [].
Proof.
  intros p.
  destruct (placeholder_before_first_run p (mount p) FreshHint)
    as (H1 & H2 & _).
  - constructor.
  - vm_compute. reflexivity.
  - vm_compute. reflexivity.
  - split; [exact H1|exact H2].
Defined.

Lemma no_call_without_autoStart_witness :
  let p := Example.fresh false in
  dispatched (run p [TimerFires; Progress 0 "reading the news"; Unmount])
  = [].
Proof.
  intros p.
  destruct (no_call_without_autoStart p
              [TimerFires; Progress 0 "reading the news"; Unmount])
    as (_ & H & _).
  - vm_compute. reflexivity.
  - vm_compute. reflexivity.
  - exact H.
Defined.
